(** * blusb layout files: parser and wire encoding

    A shallow embedding of [src/layout.c]: the character-driven parser
    [bl_parse_layout_file], the serialiser [bl_layout_convert], the pretty
    printer [bl_layout_print] and the write flow [bl_layout_write], followed
    by the properties of the specification that concern them and by further
    properties of the code. *)

From Stdlib Require Import ZArith Ascii String List Lia Bool.
From stdpp Require Import base option list gmap strings.

Local Open Scope Z_scope.

(** ** Characters and the C library *)

Definition LF : ascii := "010"%char.
Definition CR : ascii := "013"%char.
Definition TAB : ascii := "009"%char.
Definition SPACE : ascii := " "%char.
Definition COMMA : ascii := ","%char.

(** The text of a file, from lines that each end in a line feed. *)
Definition chars (s : string) : list ascii := list_ascii_of_string s.

Fixpoint unlines (ls : list string) : list ascii :=
  match ls with
  | [] => []
  | l :: ls' => chars l ++ LF :: unlines ls'
  end.

Definition code (c : ascii) : Z := Z.of_N (N_of_ascii c).

(** [isdigit] of <ctype.h> in the C locale; it is false on the characters
    above 127, which a signed [char] hands over as negative values. *)
Definition isdigit (c : ascii) : bool := (48 <=? code c) && (code c <=? 57).

(** [atoi] of <stdlib.h> on the accumulation buffer.  The parser only ever
    appends digits to the buffer, so the model reads the leading run of
    digits and stops at the first other character; white space and signs
    never occur in it.  The C library leaves the result undefined when the
    value does not fit an [int] (glibc saturates at the bounds of [long]);
    the model keeps the mathematical value, and is only relied on for
    values that fit an [int] ([valid_key], [wide_key]). *)
Fixpoint atoi_from (acc : Z) (s : list ascii) : Z :=
  match s with
  | [] => acc
  | c :: s' => if isdigit c then atoi_from (acc * 10 + (code c - 48)) s' else acc
  end.

Definition atoi (s : list ascii) : Z := atoi_from 0 s.

(** Conversion of an [int] to [uint16_t]. *)
Definition to_uint16 (v : Z) : Z := v mod 65536.

(** A [FILE *] opened for reading: the characters not yet read and the
    end-of-file indicator, which only a read past the end sets. *)
Record FILE := mkFILE { f_data : list ascii; f_eof : bool }.

(** [fgetc], with its result already converted to [char]: at the end of the
    data it yields [(char) EOF] and sets the indicator. *)
Definition fgetc (f : FILE) : ascii * FILE :=
  match f_data f with
  | [] => ("255"%char, mkFILE [] true)
  | c :: r => (c, mkFILE r (f_eof f))
  end.

Definition feof (f : FILE) : bool := f_eof f.

(** ** The layout object *)

(** [bl_layout_t]: the layer count and the three-dimensional matrix of
    16-bit key codes.  The matrix is a finite map from [(layer, row, col)]
    to the value last stored there; a cell that was never stored is absent
    (its content is indeterminate, the struct comes from [malloc]). *)
Record bl_layout_t := mkLayout {
  nlayers : Z;
  matrix : gmap (Z * Z * Z) Z
}.

Definition bl_create_layout (n : Z) : bl_layout_t :=
  {| nlayers := n; matrix := ∅ |}.

(** The lines printed by the parser, by kind. *)
Inductive message :=
| MsgCouldNotOpen
| MsgBufferSpace
| MsgKeysInRow
| MsgRowsInLayer
| MsgUnexpectedInDigits (c : ascii)
| MsgUnexpectedInWhitespace (c : ascii)
| MsgNotEnoughKeys.

Inductive lexstate := BL_STATE_DIGIT | BL_STATE_WHITESPACE.

(** The local variables of [bl_parse_layout_file] inside its loop, together
    with the lines printed so far and the index triples of the matrix
    stores performed so far, both oldest first.  The counters [layer], [row]
    and [col] are C [int]s; each grows by at most one per character read, so
    they are kept as unbounded integers. *)
Record locals := mkLocals {
  f : FILE;
  layout : bl_layout_t;
  layer : Z;
  col : Z;
  row : Z;
  state : lexstate;
  parse_buffer : list ascii;
  ch : ascii;
  printed : list message;
  stores : list (Z * Z * Z)
}.

(** What a call of [bl_parse_layout_file] leaves behind: the returned
    pointer ([None] is [NULL]), whether the stream it opened is still open,
    the lines it printed and the matrix stores it performed. *)
Record outcome := mkOutcome {
  ret : option bl_layout_t;
  stream_open : bool;
  o_printed : list message;
  o_stores : list (Z * Z * Z)
}.

(** [layout->matrix[l][r][c] = v].  The store is recorded under its index
    triple whether or not the triple lies inside the array; [in_bounds]
    below tells the two apart.  The map agrees with the array of the C
    program only as long as every store is [in_bounds]: in C a row index of
    [NUMROWS] or more addresses a cell of the next layer, and a layer index
    of [NUMLAYERS_MAX] or more addresses memory past the struct.  The
    theorems below that speak of the content of a layout assume or
    establish that the stores listed in [stores] are all [in_bounds], or
    are about a store that is not. *)
Definition store (lay : bl_layout_t) (l r c v : Z) : bl_layout_t :=
  {| nlayers := nlayers lay; matrix := <[(l, r, c) := to_uint16 v]> (matrix lay) |}.

Section Device.

(** The constants of [blusb.h] and [layout.h], which fix the dimensions of
    [matrix] in [bl_layout_t]. *)
Variables NUMROWS NUMCOLS NUMLAYERS_MAX : Z.

(** [sizeof(parse_buffer)] *)
Definition BUFSIZE : Z := 20.

(** One iteration of the [while] loop (lines 94-149): either the locals for
    the next iteration, or the outcome of a [return] from inside the loop. *)
Definition body (s : locals) : locals + outcome :=
  let '(mkLocals f layout layer col row state buf ch out sts) := s in
  match state with
  | BL_STATE_DIGIT =>
      if isdigit ch then
        if BUFSIZE - 1 <=? Z.of_nat (length buf) then
          inr (mkOutcome None true (out ++ [MsgBufferSpace]) sts)
        else
          let '(ch', f') := fgetc f in
          inl (mkLocals f' layout layer col row state (buf ++ [ch]) ch' out sts)
      else if Ascii.eqb ch COMMA then
        let key := to_uint16 (atoi buf) in
        let layout' := store layout layer row col key in
        let sts' := sts ++ [(layer, row, col)] in
        let '(ch', f') := fgetc f in
        if col =? NUMCOLS - 1 then
          inl (mkLocals f' layout' layer 0 (row + 1) BL_STATE_WHITESPACE [] ch' out sts')
        else
          inl (mkLocals f' layout' layer (col + 1) row BL_STATE_WHITESPACE [] ch' out sts')
      else if Ascii.eqb ch LF || Ascii.eqb ch CR then
        let layout' := store layout layer row col (atoi buf) in
        let sts' := sts ++ [(layer, row, col)] in
        if col <? NUMCOLS - 1 then
          inr (mkOutcome None true (out ++ [MsgKeysInRow]) sts')
        else if row <? NUMROWS - 1 then
          inr (mkOutcome None true (out ++ [MsgRowsInLayer]) sts')
        else
          let '(ch', f') := fgetc f in
          inl (mkLocals f' layout' (layer + 1) 0 0 BL_STATE_WHITESPACE [] ch' out sts')
      else
        inr (mkOutcome None true (out ++ [MsgUnexpectedInDigits ch]) sts)
  | BL_STATE_WHITESPACE =>
      if Ascii.eqb ch LF || Ascii.eqb ch CR || Ascii.eqb ch SPACE || Ascii.eqb ch TAB then
        let '(ch', f') := fgetc f in
        inl (mkLocals f' layout layer col row state buf ch' out sts)
      else if isdigit ch then
        inl (mkLocals f layout layer col row BL_STATE_DIGIT buf ch out sts)
      else
        inl (mkLocals f layout layer col row state buf ch
               (out ++ [MsgUnexpectedInWhitespace ch]) sts)
  end.

(** [while (!feof(f)) { ... }] run for at most [fuel] iterations: [None] when
    the iterations do not suffice, otherwise the locals at the exit of the
    loop or the outcome of the [return] taken inside it. *)
Fixpoint while_loop (fuel : nat) (s : locals) : option (locals + outcome) :=
  match fuel with
  | O => None
  | S k =>
      if feof (f s) then Some (inl s)
      else match body s with
           | inl s' => while_loop k s'
           | inr o => Some (inr o)
           end
  end.

(** Lines 151-168: the code after the loop. *)
Definition after_loop (s : locals) : outcome :=
  let '(mkLocals f layout layer col row state buf ch out sts) := s in
  let '(layout1, sts1) :=
    if 0 <? Z.of_nat (length buf)
    then (store layout layer row col (atoi buf), sts ++ [(layer, row, col)])
    else (layout, sts) in
  let layout2 := {| nlayers := layer; matrix := matrix layout1 |} in
  if ((0 <? row) && (row <? NUMROWS - 1)) || ((0 <? col) && (col <? NUMCOLS - 1)) then
    mkOutcome None false (out ++ [MsgNotEnoughKeys]) sts1
  else
    mkOutcome (Some layout2) false out sts1.

(** The locals on entry to the loop (lines 85-92). *)
Definition enter_loop (data : list ascii) : locals :=
  let layout := bl_create_layout NUMLAYERS_MAX in
  let '(ch, f) := fgetc (mkFILE data false) in
  mkLocals f layout 0 0 0 BL_STATE_WHITESPACE [] ch [] [].

(** [bl_parse_layout_file], over a file system [fs] that maps a name to the
    content of the file when it can be opened. *)
Definition bl_parse_layout_file (fuel : nat) (fs : string -> option (list ascii))
    (fname : string) : option outcome :=
  match fs fname with
  | None => Some (mkOutcome None false [MsgCouldNotOpen] [])
  | Some data =>
      match while_loop fuel (enter_loop data) with
      | None => None
      | Some (inr o) => Some o
      | Some (inl s) => Some (after_loop s)
      end
  end.

(** An index triple that lies inside [matrix[NUMLAYERS_MAX][NUMROWS][NUMCOLS]]. *)
Definition in_bounds (i : Z * Z * Z) : bool :=
  let '(l, r, c) := i in
  (0 <=? l) && (l <? NUMLAYERS_MAX) && (0 <=? r) && (r <? NUMROWS)
  && (0 <=? c) && (c <? NUMCOLS).

(** ** Serialisation *)

(** The store of the 16-bit value [v] at index [n] of [data] seen as an
    array of [uint16_t], on a little-endian host; an indeterminate value
    leaves both bytes indeterminate. *)
Definition store16 (data : list (option Z)) (n : Z) (v : option Z) : list (option Z) :=
  <[Z.to_nat (2 * n) := (λ w, w mod 256) <$> v]>
    (<[Z.to_nat (2 * n + 1) := (λ w, w / 256) <$> v]> data).

(** [bl_layout_convert]: the freshly allocated block, byte by byte, [None]
    for a byte that holds whatever [malloc] left there. *)
Definition bl_layout_convert (lay : bl_layout_t) : list (option Z) :=
  let data := replicate (Z.to_nat (2 * (1 + nlayers lay * NUMCOLS * NUMROWS))) None in
  let data := store16 data 0 (Some (to_uint16 (nlayers lay))) in
  foldl (λ data layer,
    foldl (λ data row,
      foldl (λ data col,
        let n := layer * NUMROWS * NUMCOLS + row * NUMCOLS + col in
        store16 data n (matrix lay !! (layer, row, col)))
      data (seqZ 0 NUMCOLS))
    data (seqZ 0 NUMROWS))
  data (seqZ 0 (nlayers lay)).

(** ** The write flow *)

(** The calls [bl_layout_write] makes after parsing, with their arguments. *)
Inductive call :=
| Call_convert (lay : option bl_layout_t)
| Call_usb_write (data : list (option Z)) (n : Z).

(** [bl_layout_write]: the calls made after parsing and the value returned.
    The pointer the parser returned is handed to [bl_layout_convert]
    unchecked; when it is [NULL] the conversion dereferences it in its first
    statement and the run ends there, which the [None] in place of the
    returned value stands for. *)
Definition bl_layout_write (fuel : nat) (fs : string -> option (list ascii))
    (fname : string) : option (list call * option Z) :=
  match bl_parse_layout_file fuel fs fname with
  | None => None
  | Some o =>
      let layout := ret o in
      match layout with
      | None => Some ([Call_convert layout], None)
      | Some lay =>
          let data := bl_layout_convert lay in
          Some ([Call_convert layout; Call_usb_write data (nlayers lay)], Some 0)
      end
  end.

End Device.

(** The file system with one file. *)
Definition one_file (name : string) (data : list ascii) : string -> option (list ascii) :=
  λ n, if String.eqb n name then Some data else None.

(** The cells of layer [l] as the grid of [NUMROWS] rows of [NUMCOLS] cells. *)
Definition layer_cells (NUMROWS NUMCOLS : Z) (lay : bl_layout_t) (l : Z)
    : list (list (option Z)) :=
  (λ r, (λ c, matrix lay !! (l, r, c)) <$> seqZ 0 NUMCOLS) <$> seqZ 0 NUMROWS.

(** ** Reading the wire format back

    The decoder the specification describes: bytes [0,2) are the layer
    count, and the 2-byte group number [1 + (l * NUMROWS + r) * NUMCOLS + c]
    is the cell [(l, r, c)], both little-endian. *)
Definition read16 (data : list (option Z)) (n : Z) : option Z :=
  b0 ← data !! Z.to_nat (2 * n) ≫= id;
  b1 ← data !! Z.to_nat (2 * n + 1) ≫= id;
  Some (b0 + 256 * b1).

Definition decode_count (data : list (option Z)) : option Z := read16 data 0.

Definition decode_cell (NUMROWS NUMCOLS : Z) (data : list (option Z)) (l r c : Z)
    : option Z :=
  read16 data (1 + (l * NUMROWS + r) * NUMCOLS + c).

(** ** The block seen as 16-bit groups *)

(** The two bytes of group number [n] of a block. *)
Definition group (data : list (option Z)) (n : Z)
    : option (option Z) * option (option Z) :=
  (data !! Z.to_nat (2 * n), data !! Z.to_nat (2 * n + 1)).

(** The two bytes a store of [v] leaves in a group. *)
Definition bytes_of (v : option Z) : option (option Z) * option (option Z) :=
  (Some ((λ w, w mod 256) <$> v), Some ((λ w, w / 256) <$> v)).

(** The group index computed at lines 34-36 for a cell. *)
Definition group_index (NUMROWS NUMCOLS : Z) (i : Z * Z * Z) : Z :=
  i.1.1 * NUMROWS * NUMCOLS + i.1.2 * NUMCOLS + i.2.

(** The cells in the order the three loops of [bl_layout_convert] visit them. *)
Definition loop_indices (NUMROWS NUMCOLS L : Z) : list (Z * Z * Z) :=
  l ← seqZ 0 L; r ← seqZ 0 NUMROWS; c ← seqZ 0 NUMCOLS; [(l, r, c)].

(** ** Well-formed layout texts

    The format the parser accepts, written down independently of it.  A key
    is some white space followed by a run of decimal digits; a layer is its
    [NUMROWS * NUMCOLS] keys in row-major order, each followed by a comma
    except the last, which is followed by a line feed. *)

Definition is_space (c : ascii) : bool :=
  Ascii.eqb c LF || Ascii.eqb c CR || Ascii.eqb c SPACE || Ascii.eqb c TAB.

(** The number a run of decimal digits denotes, by the weight of each
    position. *)
Fixpoint decimal (ds : list ascii) : Z :=
  match ds with
  | [] => 0
  | d :: ds' => (code d - 48) * 10 ^ Z.of_nat (length ds') + decimal ds'
  end.

Definition render_commas (ks : list (list ascii * list ascii)) : list ascii :=
  concat ((λ k, k.1 ++ k.2 ++ [COMMA]) <$> ks).

Fixpoint render_keys (ks : list (list ascii * list ascii)) : list ascii :=
  match ks with
  | [] => []
  | k :: ks' =>
      match ks' with
      | [] => k.1 ++ k.2 ++ [LF]
      | _ :: _ => k.1 ++ k.2 ++ COMMA :: render_keys ks'
      end
  end.

Definition render_layout (layers : list (list (list ascii * list ascii)))
    (trail : list ascii) : list ascii :=
  concat (render_keys <$> layers) ++ trail.

Definition valid_key (k : list ascii * list ascii) : bool :=
  forallb is_space k.1 && forallb isdigit k.2
  && (1 <=? Z.of_nat (length k.2)) && (Z.of_nat (length k.2) <=? 19)
  && (decimal k.2 <? 65536).

Definition valid_layout (NUMROWS NUMCOLS NUMLAYERS_MAX : Z)
    (layers : list (list (list ascii * list ascii))) (trail : list ascii) : bool :=
  (Z.of_nat (length layers) <=? NUMLAYERS_MAX)
  && forallb (λ ks, (Z.of_nat (length ks) =? NUMROWS * NUMCOLS) && forallb valid_key ks)
       layers
  && forallb is_space trail.

(** A line break: a line feed or a carriage return, which the parser tests
    together (lines 116 and 140). *)
Definition is_line_break (c : ascii) : bool := Ascii.eqb c LF || Ascii.eqb c CR.

(** The keys of a layer, the last closed by the line break [e]. *)
Fixpoint render_keys_end (e : ascii) (ks : list (list ascii * list ascii))
    : list ascii :=
  match ks with
  | [] => []
  | k :: ks' =>
      match ks' with
      | [] => k.1 ++ k.2 ++ [e]
      | _ :: _ => k.1 ++ k.2 ++ COMMA :: render_keys_end e ks'
      end
  end.

(** A layout text whose layers each come with their own line break. *)
Definition render_layout_ends
    (layers : list (list (list ascii * list ascii) * ascii))
    (trail : list ascii) : list ascii :=
  concat ((λ le : list (list ascii * list ascii) * ascii,
             render_keys_end le.2 le.1) <$> layers) ++ trail.

Definition valid_layer_end (NUMROWS NUMCOLS : Z)
    (le : list (list ascii * list ascii) * ascii) : bool :=
  (Z.of_nat (length le.1) =? NUMROWS * NUMCOLS) && forallb valid_key le.1
  && is_line_break le.2.

Definition valid_layout_ends (NUMROWS NUMCOLS NUMLAYERS_MAX : Z)
    (layers : list (list (list ascii * list ascii) * ascii))
    (trail : list ascii) : bool :=
  (Z.of_nat (length layers) <=? NUMLAYERS_MAX)
  && forallb (valid_layer_end NUMROWS NUMCOLS) layers
  && forallb is_space trail.

(** The locals when the characters still to be handled are [t]: the first
    of them is in [ch] and the stream holds the others. *)
Definition at_text (t : list ascii) (lay : bl_layout_t) (l c r : Z) (st : lexstate)
    (buf : list ascii) (out : list message) (sts : list (Z * Z * Z)) : locals :=
  let '(ch, f) := fgetc (mkFILE t false) in
  mkLocals f lay l c r st buf ch out sts.

(** [reaches s s']: some number of iterations leads from [s] to [s']. *)
Definition reaches (NUMROWS NUMCOLS : Z) (s s' : locals) : Prop :=
  ∃ n : nat, ∀ k : nat,
    while_loop NUMROWS NUMCOLS (n + k) s = while_loop NUMROWS NUMCOLS k s'.

(** The column and row after a key closed by a comma (lines 109-114). *)
Definition advance (NUMCOLS cl r : Z) : Z * Z :=
  if cl =? NUMCOLS - 1 then (0, r + 1) else (cl + 1, r).

(** [filled lay l p ks]: layer [l] of [lay] holds the keys [ks] at the
    row-major positions [p], [p + 1], ... *)
Definition filled (NUMCOLS : Z) (lay : bl_layout_t) (l p : Z)
    (ks : list (list ascii * list ascii)) : Prop :=
  ∀ (i : nat) k r c,
    ks !! i = Some k → 0 ≤ c < NUMCOLS → r * NUMCOLS + c = p + Z.of_nat i →
    matrix lay !! (l, r, c) = Some (decimal k.2).

(** [kept lay lay' l p]: [lay'] agrees with [lay] on the other layers and on
    the positions of layer [l] before [p]. *)
Definition kept (NUMCOLS : Z) (lay lay' : bl_layout_t) (l p : Z) : Prop :=
  ∀ l' r c,
    0 ≤ c < NUMCOLS → l' ≠ l ∨ r * NUMCOLS + c < p →
    matrix lay' !! (l', r, c) = matrix lay !! (l', r, c).

(** An index triple of layer [l] at a row-major position in [p, q). *)
Definition stored_in (NUMCOLS : Z) (l p q : Z) (i : Z * Z * Z) : Prop :=
  i.1.1 = l ∧ 0 ≤ i.2 < NUMCOLS ∧ p ≤ i.1.2 * NUMCOLS + i.2 < q.

(** The file system of the examples: the single file [layout.txt]. *)
Definition fs_example (data : list ascii) : string -> option (list ascii) :=
  one_file "layout.txt" data.

(** ** What the loop maintains *)

(** Every stored cell is a 16-bit value. *)
Definition u16_cells (lay : bl_layout_t) : Prop :=
  ∀ i v, matrix lay !! i = Some v → 0 ≤ v < 65536.

(** [cells_before lay L p]: the cells of the layers below [L], and the cells
    of layer [L] at the row-major positions below [p], have been stored. *)
Definition cells_before (NUMROWS NUMCOLS : Z) (lay : bl_layout_t) (L p : Z) : Prop :=
  ∀ l r c,
    0 ≤ r → 0 ≤ c < NUMCOLS →
    (0 ≤ l < L ∧ r < NUMROWS) ∨ (l = L ∧ r * NUMCOLS + c < p) →
    is_Some (matrix lay !! (l, r, c)).

(** An index triple whose layer and row are not negative and whose column
    lies inside a row. *)
Definition store_ok (NUMCOLS : Z) (i : Z * Z * Z) : Prop :=
  0 ≤ i.1.1 ∧ 0 ≤ i.1.2 ∧ 0 ≤ i.2 < NUMCOLS.

Definition cells_inv (NUMROWS NUMCOLS : Z) (s : locals) : Prop :=
  0 ≤ layer s ∧ 0 ≤ row s ∧ 0 ≤ col s < NUMCOLS
  ∧ Forall (store_ok NUMCOLS) (stores s)
  ∧ u16_cells (layout s)
  ∧ cells_before NUMROWS NUMCOLS (layout s) (layer s) (row s * NUMCOLS + col s).

(** The lines printed by the four returns inside the loop. *)
Definition early_message (m : message) : Prop :=
  m = MsgBufferSpace ∨ m = MsgKeysInRow ∨ m = MsgRowsInLayer
  ∨ ∃ c, m = MsgUnexpectedInDigits c.

Definition early_outcome (o : outcome) : Prop :=
  ret o = None ∧ stream_open o = true ∧ ∃ m, o_printed o = [m] ∧ early_message m.

(** The number of iterations the loop can still make from [s] unless it
    repeats itself: two for each character not yet handled, one more while
    skipping white space. *)
Definition remaining (s : locals) : nat :=
  if f_eof (f s) then 0%nat
  else (2 * S (length (f_data (f s)))
        + match state s with BL_STATE_WHITESPACE => 1 | BL_STATE_DIGIT => 0 end)%nat.

(** The text of some complete layers followed by keys that are each closed
    by a comma. *)
Definition render_prefix (layers : list (list (list ascii * list ascii)))
    (ks : list (list ascii * list ascii)) : list ascii :=
  concat (render_keys <$> layers) ++ render_commas ks.

Definition valid_prefix (NUMROWS NUMCOLS : Z)
    (layers : list (list (list ascii * list ascii)))
    (ks : list (list ascii * list ascii)) : bool :=
  forallb (λ ks, (Z.of_nat (length ks) =? NUMROWS * NUMCOLS) && forallb valid_key ks)
    layers
  && forallb valid_key ks.

(** ** The pretty printer *)

(** The calls of [printf] in [bl_layout_print], by format and argument:
    the number of layers ("Number of layers: %d"), the heading of a layer
    ("Layer %d"), the indentation of the column headings, a column heading
    ("C%-5u"), the end of a line, a row heading ("R%d") and a cell
    ("%-6u"). *)
Inductive printf_call :=
| Print_count (n : Z)
| Print_layer (l : Z)
| Print_indent
| Print_column (c : Z)
| Print_newline
| Print_row (r : Z)
| Print_cell (v : option Z).

(** [bl_layout_print]: the calls of [printf] in their order (lines 176-192).
    A cell that was never stored is printed with whatever it holds, which
    [None] stands for. *)
Definition bl_layout_print (NUMROWS NUMCOLS : Z) (lay : bl_layout_t)
    : list printf_call :=
  Print_count (nlayers lay)
  :: (layer ← seqZ 0 (nlayers lay);
      [Print_layer layer; Print_indent]
      ++ (col ← seqZ 0 NUMCOLS; [Print_column (col + 1)])
      ++ [Print_newline]
      ++ (row ← seqZ 0 NUMROWS;
          [Print_row (row + 1)]
          ++ (col ← seqZ 0 NUMCOLS; [Print_cell (matrix lay !! (layer, row, col))])
          ++ [Print_newline])
      ++ [Print_newline]).

(** The cell values among some calls, in their order. *)
Definition printed_cells (calls : list printf_call) : list (option Z) :=
  calls ≫= λ p, match p with Print_cell v => [v] | _ => [] end.

(** The numbers of a layout text, layer by layer in reading order. *)
Definition source_numbers (layers : list (list (list ascii * list ascii)))
    : list (option Z) :=
  concat ((λ ks : list (list ascii * list ascii),
             (λ k : list ascii * list ascii, Some (decimal k.2)) <$> ks) <$> layers).

(** ** Line ends *)

(** A text with its carriage returns turned into line feeds. *)
Definition cr_to_lf (c : ascii) : ascii := if Ascii.eqb c CR then LF else c.

Definition cr_to_lf_file (fl : FILE) : FILE :=
  mkFILE (cr_to_lf <$> f_data fl) (f_eof fl).

Definition cr_to_lf_locals (s : locals) : locals :=
  mkLocals (cr_to_lf_file (f s)) (layout s) (layer s) (col s) (row s) (state s)
    (parse_buffer s) (cr_to_lf (ch s)) (printed s) (stores s).

(** A key whose number fits an [int] but perhaps not 16 bits. *)
Definition wide_key (k : list ascii * list ascii) : bool :=
  forallb is_space k.1 && forallb isdigit k.2
  && (1 <=? Z.of_nat (length k.2)) && (Z.of_nat (length k.2) <=? 19)
  && (decimal k.2 <=? 2147483647).

(** Sample keys and a sample layer for a device of two rows and three
    columns. *)
Definition sample_key (s : string) : list ascii * list ascii := ([], chars s).

Definition sample_layer : list (list ascii * list ascii) :=
  [sample_key "1"; sample_key "2"; sample_key "3";
   ([LF], chars "4"); sample_key "5"; sample_key "6"].

(** The run of the parser on a file after at most [n] iterations of its
    loop: the locals reached while the loop is still running, or the outcome
    once the parser has returned, from inside the loop or through the code
    after it. *)
Fixpoint progress (NUMROWS NUMCOLS : Z) (n : nat) (s : locals) : locals + outcome :=
  match n with
  | O => inl s
  | S k =>
      if feof (f s) then inr (after_loop NUMROWS NUMCOLS s)
      else match body NUMROWS NUMCOLS s with
           | inl s' => progress NUMROWS NUMCOLS k s'
           | inr o => inr o
           end
  end.

(** The index triples of the stores made so far. *)
Definition stores_so_far (x : locals + outcome) : list (Z * Z * Z) :=
  match x with inl s => stores s | inr o => o_stores o end.

(** Every layer counted so far has been stored into. *)
Definition layers_counted (l : Z) (sts : list (Z * Z * Z)) : Prop :=
  ∀ l0, 0 ≤ l0 < l → ∃ r c, (l0, r, c) ∈ sts.

(** [prefix_in_bounds layers m]: complete layers followed by [m] stored keys
    of a further layer stay inside [matrix]. *)
Definition prefix_in_bounds (NUMROWS NUMCOLS NUMLAYERS_MAX : Z)
    (layers : list (list (list ascii * list ascii))) (m : Z) : bool :=
  (m <=? NUMROWS * NUMCOLS)
  && (if m =? 0 then Z.of_nat (length layers) <=? NUMLAYERS_MAX
      else Z.of_nat (length layers) <? NUMLAYERS_MAX).

(** ** Fuel *)

Section Fuel.

Variables NUMROWS NUMCOLS NUMLAYERS_MAX : Z.

Local Abbreviation loop := (while_loop NUMROWS NUMCOLS).
Local Abbreviation parse := (bl_parse_layout_file NUMROWS NUMCOLS NUMLAYERS_MAX).

Lemma while_loop_more (n m : nat) (s : locals) (r : locals + outcome) :
  loop n s = Some r → loop (n + m) s = Some r.
Proof.
  revert s. induction n as [|n IH]; intros s H; simpl in *; [discriminate|].
  destruct (feof (f s)); [exact H|].
  destruct (body NUMROWS NUMCOLS s) as [s'|o]; [by apply IH | exact H].
Qed.

Lemma while_loop_agree (n m : nat) (s : locals) (r r' : locals + outcome) :
  loop n s = Some r → loop m s = Some r' → r = r'.
Proof.
  intros Hn Hm.
  apply (while_loop_more n m) in Hn. apply (while_loop_more m n) in Hm.
  rewrite (Nat.add_comm m n) in Hm. congruence.
Qed.

Lemma parse_agree (n m : nat) fs fname (o o' : outcome) :
  parse n fs fname = Some o → parse m fs fname = Some o' → o = o'.
Proof.
  unfold bl_parse_layout_file. destruct (fs fname) as [data|]; [|congruence].
  destruct (loop n _) as [r|] eqn:Hn; [|discriminate].
  destruct (loop m _) as [r'|] eqn:Hm; [|discriminate].
  rewrite (while_loop_agree _ _ _ _ _ Hn Hm).
  destruct r'; congruence.
Qed.

(** A state of the loop that repeats itself is never left. *)
Lemma while_loop_stuck (s : locals) :
  feof (f s) = false →
  (∀ out, ∃ out', body NUMROWS NUMCOLS
      (mkLocals (f s) (layout s) (layer s) (col s) (row s) (state s)
                (parse_buffer s) (ch s) out (stores s))
    = inl (mkLocals (f s) (layout s) (layer s) (col s) (row s) (state s)
                (parse_buffer s) (ch s) out' (stores s))) →
  ∀ fuel, loop fuel s = None.
Proof.
  intros Heof Hbody fuel. revert s Heof Hbody.
  induction fuel as [|k IH]; intros s Heof Hbody; [reflexivity|].
  simpl. rewrite Heof.
  destruct s as [f0 lay l c r st buf c0 out sts]; simpl in *.
  destruct (Hbody out) as [out' ->].
  apply IH; simpl; [assumption|exact Hbody].
Qed.

(** A [return] from inside the loop hands back [NULL] and leaves the stream
    open; the code after the loop closes it. *)
Lemma return_inside_loop (fuel : nat) (s : locals) (o : outcome) :
  loop fuel s = Some (inr o) → ret o = None ∧ stream_open o = true.
Proof.
  revert s. induction fuel as [|k IH]; intros s H; simpl in H; [discriminate|].
  destruct (feof (f s)); [discriminate|].
  destruct (body NUMROWS NUMCOLS s) as [s'|o'] eqn:Hbody; [by apply (IH s')|].
  injection H as ->. unfold body in Hbody.
  destruct s as [f0 lay l c r st buf c0 out sts].
  repeat case_match; simplify_eq; done.
Qed.

Lemma return_after_loop (s : locals) :
  stream_open (after_loop NUMROWS NUMCOLS s) = false.
Proof.
  destruct s as [f0 lay l c r st buf c0 out sts]. unfold after_loop.
  repeat case_match; done.
Qed.

End Fuel.

(** ** Characters *)

Lemma isdigit_not_space (c : ascii) : isdigit c = true → is_space c = false.
Proof. destruct c as [[] [] [] [] [] [] [] []]; vm_compute; congruence. Qed.

Lemma isdigit_not_comma (c : ascii) : isdigit c = true → Ascii.eqb c COMMA = false.
Proof. destruct c as [[] [] [] [] [] [] [] []]; vm_compute; congruence. Qed.

Lemma isdigit_code (c : ascii) : isdigit c = true → 0 ≤ code c - 48 ≤ 9.
Proof. unfold isdigit. intros H. apply andb_prop in H as [H1 H2]. lia. Qed.

Lemma decimal_bounds (ds : list ascii) :
  forallb isdigit ds = true → 0 ≤ decimal ds < 10 ^ Z.of_nat (length ds).
Proof.
  induction ds as [|d ds IH]; simpl; intros H; [lia|].
  apply andb_prop in H as [Hd Hds].
  specialize (IH Hds). apply isdigit_code in Hd.
  rewrite Nat2Z.inj_succ, Z.pow_succ_r by lia. nia.
Qed.

Lemma atoi_from_decimal (ds : list ascii) (acc : Z) :
  forallb isdigit ds = true →
  atoi_from acc ds = acc * 10 ^ Z.of_nat (length ds) + decimal ds.
Proof.
  revert acc. induction ds as [|d ds IH]; simpl; intros acc H; [lia|].
  apply andb_prop in H as [Hd Hds]. rewrite Hd, IH by assumption.
  rewrite Nat2Z.inj_succ, Z.pow_succ_r by lia. ring.
Qed.

Lemma atoi_decimal (ds : list ascii) :
  forallb isdigit ds = true → atoi ds = decimal ds.
Proof. intros H. unfold atoi. rewrite atoi_from_decimal by assumption. lia. Qed.

Lemma to_uint16_small (v : Z) : 0 ≤ v < 65536 → to_uint16 v = v.
Proof. intros H. unfold to_uint16. by apply Z.mod_small. Qed.

(** ** Runs of the loop over well-formed text *)

Section Parsing.

Variables NUMROWS NUMCOLS NUMLAYERS_MAX : Z.
Hypothesis rows_pos : 0 < NUMROWS.
Hypothesis cols_pos : 0 < NUMCOLS.

Local Abbreviation loop := (while_loop NUMROWS NUMCOLS).
Local Abbreviation step := (body NUMROWS NUMCOLS).
Local Notation "s ~> s'" := (reaches NUMROWS NUMCOLS s s') (at level 70).

Lemma reaches_refl (s : locals) : s ~> s.
Proof. by exists 0%nat. Qed.

Lemma reaches_trans (s1 s2 s3 : locals) : s1 ~> s2 → s2 ~> s3 → s1 ~> s3.
Proof.
  intros [n Hn] [m Hm]. exists (n + m)%nat. intros k.
  rewrite <- Nat.add_assoc, Hn. apply Hm.
Qed.

Lemma reaches_step (s s' : locals) :
  feof (f s) = false → step s = inl s' → s ~> s'.
Proof. intros Heof Hs. exists 1%nat. intros k. simpl. by rewrite Heof, Hs. Qed.

Lemma reaches_result (s s' : locals) (k : nat) (r : locals + outcome) :
  s ~> s' → loop k s' = Some r → ∃ fuel, loop fuel s = Some r.
Proof. intros [n Hn] Hk. exists (n + k)%nat. by rewrite Hn. Qed.

Lemma at_text_cons c t lay l cl r st buf out sts :
  at_text (c :: t) lay l cl r st buf out sts
  = mkLocals (mkFILE t false) lay l cl r st buf c out sts.
Proof. reflexivity. Qed.

Lemma at_text_nil lay l cl r st buf out sts :
  at_text [] lay l cl r st buf out sts
  = mkLocals (mkFILE [] true) lay l cl r st buf "255"%char out sts.
Proof. reflexivity. Qed.

Lemma read_next t lay l cl r st buf out sts :
  (let '(ch', f') := fgetc (mkFILE t false) in
   @inl locals outcome (mkLocals f' lay l cl r st buf ch' out sts))
  = inl (at_text t lay l cl r st buf out sts).
Proof. unfold at_text. by destruct (fgetc (mkFILE t false)). Qed.

(** White space between tokens is skipped. *)
Lemma skip_space ws t lay l cl r buf out sts :
  forallb is_space ws = true →
  at_text (ws ++ t) lay l cl r BL_STATE_WHITESPACE buf out sts
  ~> at_text t lay l cl r BL_STATE_WHITESPACE buf out sts.
Proof.
  induction ws as [|c ws IH]; simpl; intros H; [apply reaches_refl|].
  apply andb_prop in H as [Hc Hws].
  eapply reaches_trans; [|by apply IH].
  apply reaches_step; [reflexivity|].
  rewrite at_text_cons. unfold body. unfold is_space in Hc. rewrite Hc.
  apply read_next.
Qed.

(** A digit met while skipping white space switches state and stays the
    current character. *)
Lemma enter_digits c t lay l cl r buf out sts :
  isdigit c = true →
  at_text (c :: t) lay l cl r BL_STATE_WHITESPACE buf out sts
  ~> at_text (c :: t) lay l cl r BL_STATE_DIGIT buf out sts.
Proof.
  intros Hc. apply reaches_step; [reflexivity|].
  rewrite at_text_cons. unfold body.
  pose proof (isdigit_not_space c Hc) as Hs. unfold is_space in Hs.
  by rewrite Hs, Hc.
Qed.

(** Digits are appended to the buffer while it has room. *)
Lemma read_digits ds t lay l cl r buf out sts :
  forallb isdigit ds = true →
  Z.of_nat (length buf) + Z.of_nat (length ds) ≤ 19 →
  at_text (ds ++ t) lay l cl r BL_STATE_DIGIT buf out sts
  ~> at_text t lay l cl r BL_STATE_DIGIT (buf ++ ds) out sts.
Proof.
  revert buf. induction ds as [|d ds IH]; simpl; intros buf H Hlen.
  { rewrite app_nil_r. apply reaches_refl. }
  apply andb_prop in H as [Hd Hds].
  eapply reaches_trans.
  - apply reaches_step; [reflexivity|].
    rewrite at_text_cons. unfold body. rewrite Hd.
    replace (BUFSIZE - 1 <=? Z.of_nat (length buf)) with false
      by (symmetry; apply Z.leb_gt; unfold BUFSIZE; lia).
    apply read_next.
  - rewrite (cons_middle d buf ds), app_assoc. apply IH; [assumption|].
    rewrite length_app. simpl. lia.
Qed.

Lemma valid_key_inv (k : list ascii * list ascii) :
  valid_key k = true →
  forallb is_space k.1 = true ∧ forallb isdigit k.2 = true
  ∧ (∃ d ds, k.2 = d :: ds ∧ isdigit d = true)
  ∧ Z.of_nat (length k.2) ≤ 19 ∧ 0 ≤ decimal k.2 < 65536.
Proof.
  unfold valid_key. rewrite !andb_true_iff, !Z.leb_le, Z.ltb_lt.
  intros ((((Hws & Hds) & H1) & H19) & Hv).
  split_and!; try done.
  - destruct (k.2) as [|d ds]; simpl in *; [lia|].
    exists d, ds. split; [done|]. by destruct (isdigit d).
  - pose proof (decimal_bounds (k.2) Hds). lia.
Qed.

(** From the start of a key to its closing character: the white space is
    skipped and the digits are in the buffer. *)
Lemma read_key k t lay l cl r out sts :
  valid_key k = true →
  at_text (k.1 ++ k.2 ++ t) lay l cl r BL_STATE_WHITESPACE [] out sts
  ~> at_text t lay l cl r BL_STATE_DIGIT k.2 out sts.
Proof.
  intros (Hws & Hds & (d & ds & Hk & Hd) & Hlen & _)%valid_key_inv.
  eapply reaches_trans; [by apply skip_space|].
  apply reaches_trans with (at_text (k.2 ++ t) lay l cl r BL_STATE_DIGIT [] out sts).
  - rewrite Hk. simpl. by apply enter_digits.
  - by apply (read_digits (k.2) t lay l cl r []).
Qed.

Lemma advance_spec cl r :
  0 ≤ cl < NUMCOLS →
  0 ≤ (advance NUMCOLS cl r).1 < NUMCOLS
  ∧ (advance NUMCOLS cl r).2 * NUMCOLS + (advance NUMCOLS cl r).1 = r * NUMCOLS + cl + 1.
Proof.
  intros H. unfold advance. destruct (Z.eqb_spec cl (NUMCOLS - 1)); simpl; lia.
Qed.

Lemma key_comma k t lay l cl r out sts :
  valid_key k = true →
  at_text (k.1 ++ k.2 ++ COMMA :: t) lay l cl r BL_STATE_WHITESPACE [] out sts
  ~> at_text t (store lay l r cl (decimal k.2)) l (advance NUMCOLS cl r).1 (advance NUMCOLS cl r).2
       BL_STATE_WHITESPACE [] out (sts ++ [(l, r, cl)]).
Proof.
  intros Hk. eapply reaches_trans; [by apply read_key|].
  destruct (valid_key_inv k Hk) as (_ & Hds & _ & _ & Hv).
  apply reaches_step; [reflexivity|].
  rewrite at_text_cons. unfold body.
  change (isdigit COMMA) with false. change (Ascii.eqb COMMA COMMA) with true.
  cbv iota. rewrite atoi_decimal, to_uint16_small by done.
  unfold advance. destruct (cl =? NUMCOLS - 1); apply read_next.
Qed.

Lemma key_line_feed k t lay l out sts :
  valid_key k = true →
  at_text (k.1 ++ k.2 ++ LF :: t) lay l (NUMCOLS - 1) (NUMROWS - 1)
    BL_STATE_WHITESPACE [] out sts
  ~> at_text t (store lay l (NUMROWS - 1) (NUMCOLS - 1) (decimal k.2)) (l + 1) 0 0
       BL_STATE_WHITESPACE [] out (sts ++ [(l, NUMROWS - 1, NUMCOLS - 1)]).
Proof.
  intros Hk. eapply reaches_trans; [by apply read_key|].
  destruct (valid_key_inv k Hk) as (_ & Hds & _ & _ & Hv).
  apply reaches_step; [reflexivity|].
  rewrite at_text_cons. unfold body.
  change (isdigit LF) with false. change (Ascii.eqb LF COMMA) with false.
  change (Ascii.eqb LF LF) with true. cbv iota. simpl orb. cbv iota.
  rewrite !Z.ltb_irrefl, atoi_decimal by done.
  apply read_next.
Qed.

Lemma row_major_inj (r c r' c' : Z) :
  0 ≤ c < NUMCOLS → 0 ≤ c' < NUMCOLS →
  r * NUMCOLS + c = r' * NUMCOLS + c' → r = r' ∧ c = c'.
Proof. intros Hc Hc' H. assert (r = r') by nia. subst. lia. Qed.

Lemma render_commas_cons k ks t :
  render_commas (k :: ks) ++ t = k.1 ++ k.2 ++ COMMA :: render_commas ks ++ t.
Proof. unfold render_commas. simpl. by rewrite <- !app_assoc. Qed.

Lemma render_keys_snoc ks k :
  render_keys (ks ++ [k]) = render_commas ks ++ k.1 ++ k.2 ++ [LF].
Proof.
  induction ks as [|k0 ks IH]; [reflexivity|].
  rewrite render_commas_cons, <- IH. simpl.
  destruct ks; reflexivity.
Qed.

(** Keys that are each closed by a comma fill the matrix in row-major order. *)
Lemma keys_commas l out ks : ∀ t lay cl r sts,
  forallb valid_key ks = true → 0 ≤ cl < NUMCOLS →
  ∃ lay' cl' r' new,
    at_text (render_commas ks ++ t) lay l cl r BL_STATE_WHITESPACE [] out sts
    ~> at_text t lay' l cl' r' BL_STATE_WHITESPACE [] out (sts ++ new)
    ∧ 0 ≤ cl' < NUMCOLS
    ∧ r' * NUMCOLS + cl' = r * NUMCOLS + cl + Z.of_nat (length ks)
    ∧ filled NUMCOLS lay' l (r * NUMCOLS + cl) ks
    ∧ kept NUMCOLS lay lay' l (r * NUMCOLS + cl)
    ∧ Forall (stored_in NUMCOLS l (r * NUMCOLS + cl)
                (r * NUMCOLS + cl + Z.of_nat (length ks))) new.
Proof.
  induction ks as [|k ks IH]; intros t lay cl r sts Hks Hcl.
  { exists lay, cl, r, []. rewrite app_nil_r. simpl.
    split_and!; try done; try lia; apply reaches_refl. }
  simpl in Hks. apply andb_prop in Hks as [Hk Hks].
  destruct (advance_spec cl r Hcl) as [Hcl1 Hpos1].
  destruct (valid_key_inv k Hk) as (_ & _ & _ & _ & Hv).
  destruct (IH t (store lay l r cl (decimal k.2)) _ (advance NUMCOLS cl r).2
              (sts ++ [(l, r, cl)]) Hks Hcl1)
    as (lay' & cl' & r' & new & Hrun & Hcl' & Hpos & Hfill & Hkept & Hnew).
  rewrite Hpos1 in *.
  exists lay', cl', r', ((l, r, cl) :: new).
  split_and!.
  - rewrite render_commas_cons. eapply reaches_trans; [by apply key_comma|].
    by rewrite (cons_middle _ sts new), app_assoc.
  - lia.
  - lia.
  - rewrite Hpos. simpl length. lia.
  - intros i k0 r0 c0 Hi Hc0 Hp. destruct i as [|i]; simpl in Hi.
    + injection Hi as <-.
      destruct (row_major_inj r0 c0 r cl) as [-> ->]; [done|done|lia|].
      rewrite Hkept by first [done | right; lia].
      simpl. by rewrite lookup_insert_eq, to_uint16_small.
    + apply (Hfill i); [done|done|lia].
  - intros l' r0 c0 Hc0 Hother.
    rewrite Hkept by first [done | destruct Hother; [by left|right; lia]].
    simpl. apply lookup_insert_ne. intros ?. simplify_eq. lia.
  - constructor; [unfold stored_in; simpl; lia|].
    eapply Forall_impl; [exact Hnew|].
    intros [[l0 r0] c0]. unfold stored_in. simpl. lia.
Qed.

(** One layer: its last key is closed by the line feed, which starts the
    next layer. *)
Lemma one_layer l out ks t lay sts :
  Z.of_nat (length ks) = NUMROWS * NUMCOLS → forallb valid_key ks = true →
  ∃ lay' new,
    at_text (render_keys ks ++ t) lay l 0 0 BL_STATE_WHITESPACE [] out sts
    ~> at_text t lay' (l + 1) 0 0 BL_STATE_WHITESPACE [] out (sts ++ new)
    ∧ filled NUMCOLS lay' l 0 ks
    ∧ kept NUMCOLS lay lay' l 0
    ∧ Forall (stored_in NUMCOLS l 0 (NUMROWS * NUMCOLS)) new.
Proof.
  intros Hlen Hks.
  destruct ks as [|k ks0 _] using rev_ind; [simpl in Hlen; nia|].
  rewrite forallb_app in Hks. apply andb_prop in Hks as [Hks0 Hk].
  simpl in Hk. rewrite andb_true_r in Hk.
  rewrite length_app in Hlen. simpl in Hlen.
  destruct (valid_key_inv k Hk) as (_ & _ & _ & _ & Hv).
  destruct (keys_commas l out ks0 (k.1 ++ k.2 ++ LF :: t) lay 0 0 sts Hks0)
    as (lay1 & cl & r & new & Hrun & Hcl & Hpos & Hfill & Hkept & Hnew); [lia|].
  destruct (row_major_inj r cl (NUMROWS - 1) (NUMCOLS - 1)) as [-> ->];
    [lia|lia|lia|].
  exists (store lay1 l (NUMROWS - 1) (NUMCOLS - 1) (decimal k.2)),
    (new ++ [(l, NUMROWS - 1, NUMCOLS - 1)]).
  split_and!.
  - rewrite render_keys_snoc, <- !app_assoc. simpl.
    eapply reaches_trans; [exact Hrun|].
    rewrite (app_assoc sts new). by apply key_line_feed.
  - intros i k0 r0 c0 Hi Hc0 Hp. simpl.
    apply lookup_app_Some in Hi as [Hi | [Hge Hi]].
    + apply lookup_lt_Some in Hi as Hlt.
      rewrite lookup_insert_ne by (intros ?; simplify_eq; lia).
      apply (Hfill i); [done|done|lia].
    + apply list_lookup_singleton_Some in Hi as [Hi <-].
      destruct (row_major_inj r0 c0 (NUMROWS - 1) (NUMCOLS - 1)) as [-> ->];
        [lia|lia|lia|].
      by rewrite lookup_insert_eq, to_uint16_small.
  - intros l' r0 c0 Hc0 Hother. simpl.
    rewrite lookup_insert_ne by (intros ?; simplify_eq; lia).
    apply Hkept; [done|]. destruct Hother; [by left|right; lia].
  - apply Forall_app. split.
    + eapply Forall_impl; [exact Hnew|].
      intros [[l0 r0] c0]. unfold stored_in. simpl. lia.
    + constructor; [unfold stored_in; simpl; lia|constructor].
Qed.

(** A whole layout: layer after layer. *)
Lemma all_layers out layers : ∀ l t lay sts,
  forallb (λ ks, (Z.of_nat (length ks) =? NUMROWS * NUMCOLS) && forallb valid_key ks)
    layers = true →
  ∃ lay' new,
    at_text (concat (render_keys <$> layers) ++ t) lay l 0 0 BL_STATE_WHITESPACE []
      out sts
    ~> at_text t lay' (l + Z.of_nat (length layers)) 0 0 BL_STATE_WHITESPACE []
         out (sts ++ new)
    ∧ (∀ (i : nat) ks, layers !! i = Some ks → filled NUMCOLS lay' (l + Z.of_nat i) 0 ks)
    ∧ (∀ l' r c, 0 ≤ c < NUMCOLS → l' < l →
         matrix lay' !! (l', r, c) = matrix lay !! (l', r, c))
    ∧ Forall (λ i, l ≤ i.1.1 < l + Z.of_nat (length layers)
                   ∧ 0 ≤ i.2 < NUMCOLS
                   ∧ 0 ≤ i.1.2 * NUMCOLS + i.2 < NUMROWS * NUMCOLS) new.
Proof.
  induction layers as [|ks layers IH]; intros l t lay sts Hall.
  { exists lay, []. rewrite app_nil_r, Z.add_0_r. simpl.
    split_and!; try done. apply reaches_refl. }
  simpl in Hall. apply andb_prop in Hall as [Hks Hall].
  apply andb_prop in Hks as [Hlen Hks]. apply Z.eqb_eq in Hlen.
  destruct (one_layer l out ks (concat (render_keys <$> layers) ++ t) lay sts Hlen Hks)
    as (lay1 & new1 & Hrun1 & Hfill1 & Hkept1 & Hnew1).
  destruct (IH (l + 1) t lay1 (sts ++ new1) Hall)
    as (lay' & new & Hrun & Hfill & Hkept & Hnew).
  exists lay', (new1 ++ new). split_and!.
  - simpl. rewrite <- app_assoc.
    eapply reaches_trans; [exact Hrun1|].
    replace (l + Z.of_nat (S (length layers)))
      with (l + 1 + Z.of_nat (length layers)) by lia.
    by rewrite (app_assoc sts new1).
  - intros i ks0 Hi. destruct i as [|i]; simpl in Hi.
    + injection Hi as <-. rewrite Z.add_0_r.
      intros j k r c Hj Hc Hp. rewrite Hkept by first [done | lia].
      by apply (Hfill1 j).
    + replace (l + Z.of_nat (S i)) with (l + 1 + Z.of_nat i) by lia.
      by apply Hfill.
  - intros l' r c Hc Hl'. rewrite Hkept by first [done | lia].
    apply Hkept1; [done|]. left. lia.
  - apply Forall_app. split.
    + eapply Forall_impl; [exact Hnew1|].
      intros [[l0 r0] c0]. unfold stored_in. simpl. lia.
    + eapply Forall_impl; [exact Hnew|].
      intros [[l0 r0] c0]. simpl. lia.
Qed.

(** The same with either line break at the end of each layer. *)
Lemma key_line_break e k t lay l out sts :
  is_line_break e = true → valid_key k = true →
  at_text (k.1 ++ k.2 ++ e :: t) lay l (NUMCOLS - 1) (NUMROWS - 1)
    BL_STATE_WHITESPACE [] out sts
  ~> at_text t (store lay l (NUMROWS - 1) (NUMCOLS - 1) (decimal k.2)) (l + 1) 0 0
       BL_STATE_WHITESPACE [] out (sts ++ [(l, NUMROWS - 1, NUMCOLS - 1)]).
Proof.
  intros He Hk. eapply reaches_trans; [by apply read_key|].
  destruct (valid_key_inv k Hk) as (_ & Hds & _ & _ & Hv).
  assert (isdigit e = false ∧ Ascii.eqb e COMMA = false) as [He1 He2].
  { unfold is_line_break in He. apply orb_prop in He as [He | He];
      apply Ascii.eqb_eq in He; by subst e. }
  apply reaches_step; [reflexivity|].
  rewrite at_text_cons. unfold body. unfold is_line_break in He.
  rewrite He1, He2, He, !Z.ltb_irrefl, atoi_decimal by done.
  apply read_next.
Qed.

Lemma render_keys_end_snoc e ks k :
  render_keys_end e (ks ++ [k]) = render_commas ks ++ k.1 ++ k.2 ++ [e].
Proof.
  induction ks as [|k0 ks IH]; [reflexivity|].
  rewrite render_commas_cons, <- IH. simpl.
  destruct ks; reflexivity.
Qed.

Lemma one_layer_end e l out ks t lay sts :
  is_line_break e = true →
  Z.of_nat (length ks) = NUMROWS * NUMCOLS → forallb valid_key ks = true →
  ∃ lay' new,
    at_text (render_keys_end e ks ++ t) lay l 0 0 BL_STATE_WHITESPACE [] out sts
    ~> at_text t lay' (l + 1) 0 0 BL_STATE_WHITESPACE [] out (sts ++ new)
    ∧ filled NUMCOLS lay' l 0 ks
    ∧ kept NUMCOLS lay lay' l 0
    ∧ Forall (stored_in NUMCOLS l 0 (NUMROWS * NUMCOLS)) new.
Proof.
  intros He Hlen Hks.
  destruct ks as [|k ks0 _] using rev_ind; [simpl in Hlen; nia|].
  rewrite forallb_app in Hks. apply andb_prop in Hks as [Hks0 Hk].
  simpl in Hk. rewrite andb_true_r in Hk.
  rewrite length_app in Hlen. simpl in Hlen.
  destruct (valid_key_inv k Hk) as (_ & _ & _ & _ & Hv).
  destruct (keys_commas l out ks0 (k.1 ++ k.2 ++ e :: t) lay 0 0 sts Hks0)
    as (lay1 & cl & r & new & Hrun & Hcl & Hpos & Hfill & Hkept & Hnew); [lia|].
  destruct (row_major_inj r cl (NUMROWS - 1) (NUMCOLS - 1)) as [-> ->];
    [lia|lia|lia|].
  exists (store lay1 l (NUMROWS - 1) (NUMCOLS - 1) (decimal k.2)),
    (new ++ [(l, NUMROWS - 1, NUMCOLS - 1)]).
  split_and!.
  - rewrite render_keys_end_snoc, <- !app_assoc. simpl.
    eapply reaches_trans; [exact Hrun|].
    rewrite (app_assoc sts new). by apply key_line_break.
  - intros i k0 r0 c0 Hi Hc0 Hp. simpl.
    apply lookup_app_Some in Hi as [Hi | [Hge Hi]].
    + apply lookup_lt_Some in Hi as Hlt.
      rewrite lookup_insert_ne by (intros ?; simplify_eq; lia).
      apply (Hfill i); [done|done|lia].
    + apply list_lookup_singleton_Some in Hi as [Hi <-].
      destruct (row_major_inj r0 c0 (NUMROWS - 1) (NUMCOLS - 1)) as [-> ->];
        [lia|lia|lia|].
      by rewrite lookup_insert_eq, to_uint16_small.
  - intros l' r0 c0 Hc0 Hother. simpl.
    rewrite lookup_insert_ne by (intros ?; simplify_eq; lia).
    apply Hkept; [done|]. destruct Hother; [by left|right; lia].
  - apply Forall_app. split.
    + eapply Forall_impl; [exact Hnew|].
      intros [[l0 r0] c0]. unfold stored_in. simpl. lia.
    + constructor; [unfold stored_in; simpl; lia|constructor].
Qed.

Lemma all_layers_ends out (layers : list (list (list ascii * list ascii) * ascii)) :
  ∀ l t lay sts,
  forallb (valid_layer_end NUMROWS NUMCOLS) layers = true →
  ∃ lay' new,
    at_text (render_layout_ends layers t) lay l 0 0 BL_STATE_WHITESPACE [] out sts
    ~> at_text t lay' (l + Z.of_nat (length layers)) 0 0 BL_STATE_WHITESPACE []
         out (sts ++ new)
    ∧ (∀ (i : nat) le, layers !! i = Some le →
         filled NUMCOLS lay' (l + Z.of_nat i) 0 le.1)
    ∧ (∀ l' r c, 0 ≤ c < NUMCOLS → l' < l →
         matrix lay' !! (l', r, c) = matrix lay !! (l', r, c))
    ∧ Forall (λ i, l ≤ i.1.1 < l + Z.of_nat (length layers)
                   ∧ 0 ≤ i.2 < NUMCOLS
                   ∧ 0 ≤ i.1.2 * NUMCOLS + i.2 < NUMROWS * NUMCOLS) new.
Proof.
  unfold render_layout_ends.
  induction layers as [|[ks e] layers IH]; intros l t lay sts Hall.
  { exists lay, []. rewrite app_nil_r, Z.add_0_r. simpl.
    split_and!; try done. apply reaches_refl. }
  simpl in Hall. apply andb_prop in Hall as [Hle Hall].
  unfold valid_layer_end in Hle. simpl in Hle.
  apply andb_prop in Hle as [[Hlen Hks]%andb_prop He]. apply Z.eqb_eq in Hlen.
  destruct (one_layer_end e l out ks
              (concat ((λ le : list (list ascii * list ascii) * ascii,
                          render_keys_end le.2 le.1) <$> layers) ++ t)
              lay sts He Hlen Hks)
    as (lay1 & new1 & Hrun1 & Hfill1 & Hkept1 & Hnew1).
  destruct (IH (l + 1) t lay1 (sts ++ new1) Hall)
    as (lay' & new & Hrun & Hfill & Hkept & Hnew).
  exists lay', (new1 ++ new). split_and!.
  - simpl. rewrite <- app_assoc.
    eapply reaches_trans; [exact Hrun1|].
    replace (l + Z.of_nat (S (length layers)))
      with (l + 1 + Z.of_nat (length layers)) by lia.
    by rewrite (app_assoc sts new1).
  - intros i le Hi. destruct i as [|i]; simpl in Hi.
    + injection Hi as <-. rewrite Z.add_0_r. simpl.
      intros j k r c Hj Hc Hp. rewrite Hkept by first [done | lia].
      by apply (Hfill1 j).
    + replace (l + Z.of_nat (S i)) with (l + 1 + Z.of_nat i) by lia.
      by apply Hfill.
  - intros l' r c Hc Hl'. rewrite Hkept by first [done | lia].
    apply Hkept1; [done|]. left. lia.
  - apply Forall_app. split.
    + eapply Forall_impl; [exact Hnew1|].
      intros [[l0 r0] c0]. unfold stored_in. simpl. lia.
    + eapply Forall_impl; [exact Hnew|].
      intros [[l0 r0] c0]. simpl. lia.
Qed.

Lemma valid_layout_ends_inv layers trail :
  valid_layout_ends NUMROWS NUMCOLS NUMLAYERS_MAX layers trail = true →
  Z.of_nat (length layers) ≤ NUMLAYERS_MAX
  ∧ forallb (valid_layer_end NUMROWS NUMCOLS) layers = true
  ∧ forallb is_space trail = true.
Proof.
  unfold valid_layout_ends. rewrite !andb_true_iff, Z.leb_le. tauto.
Qed.

Lemma valid_layout_inv layers trail :
  valid_layout NUMROWS NUMCOLS NUMLAYERS_MAX layers trail = true →
  Z.of_nat (length layers) ≤ NUMLAYERS_MAX
  ∧ forallb (λ ks, (Z.of_nat (length ks) =? NUMROWS * NUMCOLS) && forallb valid_key ks)
      layers = true
  ∧ forallb is_space trail = true.
Proof.
  unfold valid_layout. rewrite !andb_true_iff, Z.leb_le. tauto.
Qed.

Lemma after_loop_end lay l out sts :
  after_loop NUMROWS NUMCOLS (at_text [] lay l 0 0 BL_STATE_WHITESPACE [] out sts)
  = mkOutcome (Some (mkLayout l (matrix lay))) false out sts.
Proof. reflexivity. Qed.

(** C3, as amended.  A text of [L] layers, [L] at most [NUMLAYERS_MAX], each
    layer being its [NUMROWS * NUMCOLS] decimal integers in row-major order
    (one to nineteen digits, value below 65536, white space allowed in
    front), every integer followed by a comma except the last of the layer,
    which is followed by a line break, be it a line feed or a carriage
    return: the parse succeeds, closes the stream, prints nothing, returns
    [L] as the layer count and has cell [(l, r, c)] equal to integer number
    [r * NUMCOLS + c] of layer [l]; every store it performs is inside the
    matrix. *)
Theorem parse_valid_layout
    (layers : list (list (list ascii * list ascii) * ascii))
    (trail : list ascii) (fs : string → option (list ascii)) (fname : string) :
  valid_layout_ends NUMROWS NUMCOLS NUMLAYERS_MAX layers trail = true →
  fs fname = Some (render_layout_ends layers trail) →
  ∃ fuel o lay,
    bl_parse_layout_file NUMROWS NUMCOLS NUMLAYERS_MAX fuel fs fname = Some o
    ∧ ret o = Some lay
    ∧ stream_open o = false
    ∧ o_printed o = []
    ∧ nlayers lay = Z.of_nat (length layers)
    ∧ (∀ (l : nat) le r c k,
         layers !! l = Some le → 0 ≤ r → 0 ≤ c < NUMCOLS →
         le.1 !! Z.to_nat (r * NUMCOLS + c) = Some k →
         matrix lay !! (Z.of_nat l, r, c) = Some (decimal k.2))
    ∧ Forall (λ i, in_bounds NUMROWS NUMCOLS NUMLAYERS_MAX i = true) (o_stores o).
Proof.
  intros (Hmax & Hall & Htrail)%valid_layout_ends_inv Hfs.
  destruct (all_layers_ends [] layers 0 trail (bl_create_layout NUMLAYERS_MAX) [] Hall)
    as (lay & new & Hrun & Hfill & _ & Hnew).
  pose proof (skip_space trail [] lay (0 + Z.of_nat (length layers)) 0 0 [] [] ([] ++ new)
                Htrail) as Hend.
  rewrite app_nil_r in Hend.
  destruct (reaches_result _ _ 1%nat (inl (at_text [] lay (0 + Z.of_nat (length layers))
              0 0 BL_STATE_WHITESPACE [] [] ([] ++ new)))
              (reaches_trans _ _ _ Hrun Hend) eq_refl) as [fuel Hfuel].
  exists fuel. eexists. exists (mkLayout (Z.of_nat (length layers)) (matrix lay)).
  split.
  { unfold bl_parse_layout_file. rewrite Hfs.
    change (enter_loop NUMLAYERS_MAX (render_layout_ends layers trail))
      with (at_text (render_layout_ends layers trail)
              (bl_create_layout NUMLAYERS_MAX) 0 0 0 BL_STATE_WHITESPACE [] [] []).
    rewrite Hfuel. reflexivity. }
  rewrite after_loop_end. simpl.
  split_and!; try done.
  - intros l le r c k Hl Hr Hc Hk.
    apply (Hfill l le Hl (Z.to_nat (r * NUMCOLS + c))); [done|done|nia].
  - eapply Forall_impl; [exact Hnew|].
    intros [[l0 r0] c0]. unfold in_bounds. simpl. intros (Hl0 & Hc0 & Hp).
    rewrite !andb_true_iff, !Z.leb_le, !Z.ltb_lt. nia.
Qed.

(** The same text without the line feed of its last layer: the last key is
    still stored, but the layer it completes is missing from the count. *)
Lemma parse_unterminated_layout (layers : list (list (list ascii * list ascii)))
    (ks : list (list ascii * list ascii)) (k : list ascii * list ascii)
    (fs : string → option (list ascii)) (fname : string) :
  forallb (λ ks, (Z.of_nat (length ks) =? NUMROWS * NUMCOLS) && forallb valid_key ks)
    layers = true →
  Z.of_nat (length ks) + 1 = NUMROWS * NUMCOLS →
  forallb valid_key ks = true → valid_key k = true →
  fs fname = Some (concat (render_keys <$> layers) ++ render_commas ks ++ k.1 ++ k.2) →
  ∃ fuel o lay,
    bl_parse_layout_file NUMROWS NUMCOLS NUMLAYERS_MAX fuel fs fname = Some o
    ∧ ret o = Some lay
    ∧ nlayers lay = Z.of_nat (length layers)
    ∧ matrix lay !! (Z.of_nat (length layers), NUMROWS - 1, NUMCOLS - 1)
      = Some (decimal k.2).
Proof.
  intros Hall Hlen Hks Hk Hfs.
  destruct (all_layers [] layers 0 (render_commas ks ++ k.1 ++ k.2)
              (bl_create_layout NUMLAYERS_MAX) [] Hall)
    as (lay1 & new1 & Hrun1 & _).
  destruct (keys_commas (0 + Z.of_nat (length layers)) [] ks (k.1 ++ k.2 ++ [])
              lay1 0 0 ([] ++ new1) Hks)
    as (lay2 & cl & r & new2 & Hrun2 & Hcl & Hpos & _); [lia|].
  destruct (row_major_inj r cl (NUMROWS - 1) (NUMCOLS - 1)) as [-> ->];
    [lia|lia|lia|].
  pose proof (read_key k [] lay2 (0 + Z.of_nat (length layers)) (NUMCOLS - 1)
                (NUMROWS - 1) [] (([] ++ new1) ++ new2) Hk) as Hrun3.
  rewrite !app_nil_r in Hrun2, Hrun3.
  destruct (reaches_result _ _ 1%nat _
              (reaches_trans _ _ _ Hrun1 (reaches_trans _ _ _ Hrun2 Hrun3)) eq_refl)
    as [fuel Hfuel].
  destruct (valid_key_inv k Hk) as (_ & _ & (d & ds & Hd & _) & _ & Hv).
  exists fuel. eexists. eexists. split.
  { unfold bl_parse_layout_file. rewrite Hfs.
    change (enter_loop NUMLAYERS_MAX ?t)
      with (at_text t (bl_create_layout NUMLAYERS_MAX) 0 0 0 BL_STATE_WHITESPACE [] [] []).
    rewrite Hfuel. reflexivity. }
  rewrite at_text_nil. unfold after_loop.
  rewrite Hd at 1. cbn [length Z.of_nat Z.ltb Z.compare].
  rewrite !Z.ltb_irrefl, !andb_false_r. cbn [orb ret].
  split_and!; try done.
  cbn. rewrite lookup_insert_eq. f_equal. rewrite atoi_decimal, to_uint16_small; try done.
  by destruct (valid_key_inv k Hk) as (_ & ? & _).
Qed.

End Parsing.

(** ** The encoder *)

Lemma store16_length data n v : length (store16 data n v) = length data.
Proof. unfold store16. by rewrite !length_insert. Qed.

Lemma group_store16_same data n v :
  0 ≤ n → (Z.to_nat (2 * n + 1) < length data)%nat →
  group (store16 data n v) n = bytes_of v.
Proof.
  intros Hn Hlen. unfold group, store16, bytes_of. f_equal.
  - apply list_lookup_insert_eq. rewrite length_insert. lia.
  - rewrite list_lookup_insert_ne by lia. by apply list_lookup_insert_eq.
Qed.

Lemma group_store16_other data n m v :
  0 ≤ n → 0 ≤ m → n ≠ m → group (store16 data n v) m = group data m.
Proof.
  intros Hn Hm Hne. unfold group, store16.
  by rewrite !list_lookup_insert_ne by lia.
Qed.

Section Stores.

Context {A : Type} (g : A → Z) (v : A → option Z).

Local Abbreviation run := (foldl (λ d x, store16 d (g x) (v x))).

Lemma foldl_store16_length xs data : length (run data xs) = length data.
Proof.
  revert data. induction xs as [|x xs IH]; intros data; simpl; [done|].
  by rewrite IH, store16_length.
Qed.

Lemma elem_of_snoc_last (xs : list A) (y : A) : y ∈ xs ++ [y].
Proof. apply elem_of_app. right. constructor. Qed.

Lemma elem_of_snoc_front (xs : list A) (x y : A) : x ∈ xs → x ∈ xs ++ [y].
Proof. intros. apply elem_of_app. by left. Qed.

Local Hint Resolve elem_of_snoc_last elem_of_snoc_front : core.

(** A group that no store addresses keeps its bytes. *)
Lemma foldl_store16_other xs data m :
  0 ≤ m → (∀ x, x ∈ xs → 0 ≤ g x ∧ g x ≠ m) →
  group (run data xs) m = group data m.
Proof.
  intros Hm. induction xs as [|y xs IH] using rev_ind; intros Hxs; [done|].
  rewrite foldl_snoc.
  destruct (Hxs y) as [Hy Hne]; [auto|].
  rewrite group_store16_other by done.
  apply IH. auto.
Qed.

(** A group that is addressed holds the value of the stores that address it,
    when they agree. *)
Lemma foldl_store16_hit xs data x :
  x ∈ xs → (∀ y, y ∈ xs → 0 ≤ g y) →
  (Z.to_nat (2 * g x + 1) < length data)%nat →
  (∀ y, y ∈ xs → g y = g x → v y = v x) →
  group (run data xs) (g x) = bytes_of (v x).
Proof.
  induction xs as [|y xs IH] using rev_ind; intros Hx Hpos Hlen Hagree.
  { by apply elem_of_nil in Hx. }
  rewrite foldl_snoc.
  destruct (decide (g y = g x)) as [Heq | Hne].
  - rewrite <- Heq, <- (Hagree y) by auto.
    apply group_store16_same; [auto|].
    rewrite foldl_store16_length. by rewrite Heq.
  - rewrite group_store16_other by auto.
    apply IH; auto.
    apply elem_of_app in Hx as [Hx | Hx]; [done|].
    apply list_elem_of_singleton in Hx. congruence.
Qed.

End Stores.

Lemma foldl_bind {A B C} (f : A → C → A) (k : B → list C) (l : list B) (a : A) :
  foldl f a (l ≫= k) = foldl (λ a x, foldl f a (k x)) a l.
Proof.
  revert a. induction l as [|x l IH]; intros a; [done|].
  by rewrite bind_cons, foldl_app, IH.
Qed.

Lemma foldl_pointwise {A B} (f g : A → B → A) (l : list B) (a : A) :
  (∀ a x, f a x = g a x) → foldl g a l = foldl f a l.
Proof.
  intros Hfg. revert a. induction l as [|x l IH]; intros a; [done|].
  simpl. by rewrite Hfg, IH.
Qed.

Section Encoder.

Variables NUMROWS NUMCOLS : Z.
Hypothesis rows_pos : 0 < NUMROWS.
Hypothesis cols_pos : 0 < NUMCOLS.

Local Abbreviation convert := (bl_layout_convert NUMROWS NUMCOLS).
Local Abbreviation index := (group_index NUMROWS NUMCOLS).

(** The three loops as one pass over the cells in their order. *)
Lemma convert_one_pass (lay : bl_layout_t) :
  convert lay
  = foldl (λ d i, store16 d (index i) (matrix lay !! i))
      (store16 (replicate (Z.to_nat (2 * (1 + nlayers lay * NUMCOLS * NUMROWS))) None)
         0 (Some (to_uint16 (nlayers lay))))
      (loop_indices NUMROWS NUMCOLS (nlayers lay)).
Proof.
  unfold loop_indices, bl_layout_convert. rewrite foldl_bind.
  apply foldl_pointwise. intros d l. rewrite foldl_bind.
  apply foldl_pointwise. intros d' r. by rewrite foldl_bind.
Qed.

Lemma elem_of_loop_indices (L : Z) (i : Z * Z * Z) :
  i ∈ loop_indices NUMROWS NUMCOLS L
  ↔ (0 ≤ i.1.1 < L) ∧ (0 ≤ i.1.2 < NUMROWS) ∧ (0 ≤ i.2 < NUMCOLS).
Proof.
  destruct i as [[l r] c]. unfold loop_indices. simpl. split.
  - intros (l0 & (r0 & (c0 & Hi & Hc)%list_elem_of_bind & Hr)%list_elem_of_bind
              & Hl)%list_elem_of_bind.
    apply list_elem_of_singleton in Hi. simplify_eq.
    apply elem_of_seqZ in Hl, Hr, Hc. lia.
  - intros (Hl & Hr & Hc).
    apply list_elem_of_bind. exists l. split; [|apply elem_of_seqZ; lia].
    apply list_elem_of_bind. exists r. split; [|apply elem_of_seqZ; lia].
    apply list_elem_of_bind. exists c. split; [|apply elem_of_seqZ; lia].
    by apply list_elem_of_singleton.
Qed.

Lemma index_range (L : Z) (i : Z * Z * Z) :
  i ∈ loop_indices NUMROWS NUMCOLS L → 0 ≤ index i < L * NUMROWS * NUMCOLS.
Proof.
  intros (Hl & Hr & Hc)%elem_of_loop_indices. unfold group_index.
  replace (i.1.1 * NUMROWS * NUMCOLS + i.1.2 * NUMCOLS + i.2)
    with ((i.1.1 * NUMROWS + i.1.2) * NUMCOLS + i.2) by ring.
  assert (0 ≤ i.1.1 * NUMROWS + i.1.2 ≤ L * NUMROWS - 1) by nia.
  nia.
Qed.

Lemma index_inj (L : Z) (i j : Z * Z * Z) :
  i ∈ loop_indices NUMROWS NUMCOLS L → j ∈ loop_indices NUMROWS NUMCOLS L →
  index i = index j → i = j.
Proof.
  intros (Hl & Hr & Hc)%elem_of_loop_indices (Hl' & Hr' & Hc')%elem_of_loop_indices.
  destruct i as [[l r] c], j as [[l' r'] c']. unfold group_index. simpl in *.
  intros Heq.
  destruct (row_major_inj NUMCOLS cols_pos (l * NUMROWS + r) c (l' * NUMROWS + r') c')
    as [Hlr ->]; [lia|lia|lia|].
  destruct (row_major_inj NUMROWS rows_pos l r l' r') as [-> ->]; [lia|lia|lia|].
  reflexivity.
Qed.

Lemma convert_length (lay : bl_layout_t) :
  length (convert lay)
  = Z.to_nat (2 + 2 * nlayers lay * NUMROWS * NUMCOLS).
Proof.
  rewrite convert_one_pass, foldl_store16_length, store16_length, length_replicate.
  f_equal. ring.
Qed.

(** Group [l * NUMROWS * NUMCOLS + r * NUMCOLS + c] of the block, counted
    from group 0, holds cell [(l, r, c)]: the header group is the first
    cell's. *)
Lemma convert_group_cell (lay : bl_layout_t) (l r c : Z) :
  0 ≤ l < nlayers lay → 0 ≤ r < NUMROWS → 0 ≤ c < NUMCOLS →
  group (convert lay) (l * NUMROWS * NUMCOLS + r * NUMCOLS + c)
  = bytes_of (matrix lay !! (l, r, c)).
Proof.
  intros Hl Hr Hc. rewrite convert_one_pass.
  assert ((l, r, c) ∈ loop_indices NUMROWS NUMCOLS (nlayers lay)) as Hin
    by (apply elem_of_loop_indices; simpl; lia).
  apply (foldl_store16_hit index (λ i, matrix lay !! i) _ _ (l, r, c) Hin).
  - intros j Hj. apply index_range in Hj. lia.
  - rewrite store16_length, length_replicate.
    apply index_range in Hin. lia.
  - intros j Hj Heq. by rewrite (index_inj _ _ _ Hj Hin Heq).
Qed.

(** The last group of the block is never written. *)
Lemma convert_group_last (lay : bl_layout_t) :
  0 < nlayers lay →
  group (convert lay) (nlayers lay * NUMROWS * NUMCOLS) = (Some None, Some None).
Proof.
  intros HL. rewrite convert_one_pass.
  assert (0 < nlayers lay * NUMROWS * NUMCOLS) as Hpos by nia.
  rewrite foldl_store16_other; [|lia|].
  - rewrite group_store16_other by lia. unfold group.
    by rewrite !lookup_replicate_2 by nia.
  - intros i Hi%index_range. lia.
Qed.

(** With no layer the block is the header alone. *)
Lemma convert_no_layer (lay : bl_layout_t) :
  nlayers lay = 0 → convert lay = [Some 0; Some 0].
Proof. unfold bl_layout_convert. by intros ->. Qed.

End Encoder.

(** ** The claims of the specification, on the device of its own example:
    two rows, three columns, six layers *)

(** C3, witness: two layers, the first closed by a carriage return that a
    line feed follows, the second with white space in front of its keys, a
    key written with a leading zero and a line feed at its end. *)
Lemma parse_valid_layout_witness :
  ∃ fuel o lay,
    bl_parse_layout_file 2 3 6 fuel
      (fs_example (render_layout_ends
         [ ([([], chars "1"); ([], chars "2"); ([], chars "3");
             ([LF], chars "4"); ([], chars "5"); ([], chars "6")], CR);
           ([([LF], chars "10"); ([SPACE], chars "020"); ([SPACE], chars "30");
             ([LF; TAB], chars "40"); ([], chars "50"); ([], chars "65535")], LF) ]
         [LF])) "layout.txt" = Some o
    ∧ ret o = Some lay
    ∧ nlayers lay = 2
    ∧ matrix lay !! (1, 1, 2) = Some 65535.
Proof.
  destruct (parse_valid_layout 2 3 6 ltac:(lia) ltac:(lia)
    [ ([([], chars "1"); ([], chars "2"); ([], chars "3");
        ([LF], chars "4"); ([], chars "5"); ([], chars "6")], CR);
      ([([LF], chars "10"); ([SPACE], chars "020"); ([SPACE], chars "30");
        ([LF; TAB], chars "40"); ([], chars "50"); ([], chars "65535")], LF) ]
    [LF] (fs_example _) "layout.txt" ltac:(reflexivity) ltac:(reflexivity))
    as (fuel & o & lay & Hparse & Hret & _ & _ & Hn & Hcells & _).
  exists fuel, o, lay. split_and!; [exact Hparse | exact Hret | exact Hn |].
  exact (Hcells 1%nat _ 1 2 _ eq_refl ltac:(lia) ltac:(lia) eq_refl).
Defined.

(** C3, counterexample: two rows of two columns, each row on a line of its
    own as the claim has it; the line feed after the first row ends the
    parse with the complaint about the number of rows, and no layout is
    returned whatever the fuel. *)
Lemma line_feed_inside_layer_rejected :
  ¬ ∃ fuel o lay,
      bl_parse_layout_file 2 2 6 fuel (fs_example (unlines ["1,2"; "3,4"])) "layout.txt"
        = Some o
      ∧ ret o = Some lay.
Proof.
  intros (fuel & o & lay & Hparse & Hret).
  assert (bl_parse_layout_file 2 2 6 10 (fs_example (unlines ["1,2"; "3,4"])) "layout.txt"
          = Some (mkOutcome None true [MsgRowsInLayer] [(0, 0, 0); (0, 0, 1)])) as H
    by (vm_compute; reflexivity).
  rewrite (parse_agree _ _ _ _ _ _ _ _ _ Hparse H) in Hret. discriminate.
Qed.

(** C2, counterexample: the text of the scenario is not parsed to a layout;
    the line feed after [1,2,3] is met with the first of two rows done. *)
Lemma scenario_text_rejected :
  ¬ ∃ fuel o lay,
      bl_parse_layout_file 2 3 6 fuel (fs_example (unlines ["1,2,3"; "4,5,6"]))
        "layout.txt" = Some o
      ∧ ret o = Some lay
      ∧ nlayers lay = 1
      ∧ layer_cells 2 3 lay 0 = [[Some 1; Some 2; Some 3]; [Some 4; Some 5; Some 6]].
Proof.
  intros (fuel & o & lay & Hparse & Hret & _).
  assert (bl_parse_layout_file 2 3 6 10 (fs_example (unlines ["1,2,3"; "4,5,6"]))
            "layout.txt"
          = Some (mkOutcome None true [MsgRowsInLayer] [(0, 0, 0); (0, 0, 1); (0, 0, 2)]))
    as H by (vm_compute; reflexivity).
  rewrite (parse_agree _ _ _ _ _ _ _ _ _ Hparse H) in Hret. discriminate.
Qed.

(** C2, as amended.  With two rows and three columns the text
    ["1,2,3\n4,5,6\n"] is rejected with the complaint about the number of
    rows; with the first row closed by a comma before its line feed, or
    with the six keys on one line, the parse succeeds with exactly one layer
    whose cells are [[1,2,3],[4,5,6]], and the encoding of that layout is
    fourteen bytes long. *)
Theorem scenario_one_layer :
  (∃ fuel o,
     bl_parse_layout_file 2 3 6 fuel (fs_example (unlines ["1,2,3"; "4,5,6"]))
       "layout.txt" = Some o
     ∧ ret o = None ∧ o_printed o = [MsgRowsInLayer])
  ∧ (∃ fuel o lay,
      bl_parse_layout_file 2 3 6 fuel (fs_example (unlines ["1,2,3,"; "4,5,6"]))
        "layout.txt" = Some o
      ∧ ret o = Some lay
      ∧ nlayers lay = 1
      ∧ layer_cells 2 3 lay 0 = [[Some 1; Some 2; Some 3]; [Some 4; Some 5; Some 6]]
      ∧ length (bl_layout_convert 2 3 lay) = 14%nat)
  ∧ (∃ fuel o lay,
      bl_parse_layout_file 2 3 6 fuel (fs_example (unlines ["1,2,3,4,5,6"]))
        "layout.txt" = Some o
      ∧ ret o = Some lay
      ∧ nlayers lay = 1
      ∧ layer_cells 2 3 lay 0 = [[Some 1; Some 2; Some 3]; [Some 4; Some 5; Some 6]]
      ∧ length (bl_layout_convert 2 3 lay) = 14%nat).
Proof.
  split_and!.
  - exists 10%nat. eexists. split; [vm_compute; reflexivity|]. by split.
  - exists 30%nat. eexists. eexists. split; [vm_compute; reflexivity|]. by split_and!.
  - exists 30%nat. eexists. eexists. split; [vm_compute; reflexivity|]. by split_and!.
Qed.

(** C1: the header of the encoding is overwritten.  For the layout parsed
    from the one layer [7,8,9,10,11,12] the block starts with the first cell,
    not with the layer count 1; every cell sits one 16-bit group early and
    the last group is never written. *)
Theorem convert_overwrites_header :
  ∃ o lay,
    bl_parse_layout_file 2 3 6 30 (fs_example (unlines ["7,8,9,10,11,12"])) "layout.txt"
      = Some o
    ∧ ret o = Some lay
    ∧ nlayers lay = 1
    ∧ layer_cells 2 3 lay 0 = [[Some 7; Some 8; Some 9]; [Some 10; Some 11; Some 12]]
    ∧ bl_layout_convert 2 3 lay
      = [Some 7; Some 0; Some 8; Some 0; Some 9; Some 0; Some 10; Some 0;
         Some 11; Some 0; Some 12; Some 0; None; None].
Proof.
  eexists. eexists. split; [vm_compute; reflexivity|]. by split_and!.
Qed.

(** C4: a character that is neither white space nor a digit, met between
    keys, is reported and then met again: on the file [x] no amount of fuel
    lets the parse return, whatever the dimensions of the device. *)
Theorem parse_loops_on_stray_character (NUMROWS NUMCOLS NUMLAYERS_MAX : Z) (fuel : nat) :
  bl_parse_layout_file NUMROWS NUMCOLS NUMLAYERS_MAX fuel (fs_example (chars "x"))
    "layout.txt" = None.
Proof.
  unfold bl_parse_layout_file. simpl.
  rewrite while_loop_stuck; [reflexivity | reflexivity |].
  intros out. by eexists.
Qed.

(** C5: seven layers are parsed on a device with six.  The parse succeeds,
    returns the layer count 7 and has stored into layer index 6, which is
    outside the matrix. *)
Theorem parse_exceeds_max_layers :
  ∃ o lay,
    bl_parse_layout_file 2 3 6 200
      (fs_example (unlines (replicate 7 "1,2,3,4,5,6"%string))) "layout.txt" = Some o
    ∧ ret o = Some lay
    ∧ nlayers lay = 7
    ∧ o_stores o !! 36%nat = Some (6, 0, 0)
    ∧ in_bounds 2 3 6 (6, 0, 0) = false
    ∧ matrix lay !! (6, 0, 0) = Some 1.
Proof.
  eexists. eexists. split; [vm_compute; reflexivity|]. by split_and!.
Qed.

(** C6: a layout whose last line lacks the line feed.  The last key is
    stored, yet the layer it completes is not counted: the one-layer text
    [1,2,3,4,5,6] yields the layer count 0, and so does [1,2,3] on a device
    with a single row of three columns. *)
Theorem last_layer_without_line_feed_not_counted :
  (∃ o lay,
     bl_parse_layout_file 2 3 6 30 (fs_example (chars "1,2,3,4,5,6")) "layout.txt"
       = Some o
     ∧ ret o = Some lay
     ∧ layer_cells 2 3 lay 0 = [[Some 1; Some 2; Some 3]; [Some 4; Some 5; Some 6]]
     ∧ nlayers lay = 0)
  ∧ (∃ o lay,
     bl_parse_layout_file 1 3 6 30 (fs_example (chars "1,2,3")) "layout.txt" = Some o
     ∧ ret o = Some lay
     ∧ layer_cells 1 3 lay 0 = [[Some 1; Some 2; Some 3]]
     ∧ nlayers lay = 0).
Proof.
  split; eexists; eexists; (split; [vm_compute; reflexivity|]); by split_and!.
Qed.

(** C7: reading the encoding back does not give the layout.  For the layout
    parsed from the one layer [7,8,9,10,11,12] the decoded layer count is 7,
    the decoded cell (0,0,0) is 8, and the decoded cell (0,1,2) is read from
    the two bytes that were never written. *)
Theorem decode_convert_differs :
  ∃ o lay,
    bl_parse_layout_file 2 3 6 30 (fs_example (unlines ["7,8,9,10,11,12"])) "layout.txt"
      = Some o
    ∧ ret o = Some lay
    ∧ nlayers lay = 1
    ∧ decode_count (bl_layout_convert 2 3 lay) = Some 7
    ∧ matrix lay !! (0, 0, 0) = Some 7
    ∧ decode_cell 2 3 (bl_layout_convert 2 3 lay) 0 0 0 = Some 8
    ∧ matrix lay !! (0, 1, 2) = Some 12
    ∧ decode_cell 2 3 (bl_layout_convert 2 3 lay) 0 1 2 = None.
Proof.
  eexists. eexists. split; [vm_compute; reflexivity|]. by split_and!.
Qed.

(** C8: the three returns from inside the loop leave the stream open.  An
    unexpected character after a digit, a twentieth digit and a line feed
    after too few keys each end the parse with [NULL] and the stream still
    open. *)
Theorem stream_left_open_on_error :
  bl_parse_layout_file 2 3 6 10 (fs_example (chars "1x")) "layout.txt"
    = Some (mkOutcome None true [MsgUnexpectedInDigits "x"] [])
  ∧ bl_parse_layout_file 2 3 6 30 (fs_example (chars "12345678901234567890"))
      "layout.txt"
    = Some (mkOutcome None true [MsgBufferSpace] [])
  ∧ bl_parse_layout_file 2 3 6 10 (fs_example (unlines ["1,2"])) "layout.txt"
    = Some (mkOutcome None true [MsgKeysInRow] [(0, 0, 0); (0, 0, 1)])
  ∧ bl_parse_layout_file 2 3 6 10 (fs_example (unlines ["1,2,3"])) "layout.txt"
    = Some (mkOutcome None true [MsgRowsInLayer] [(0, 0, 0); (0, 0, 1); (0, 0, 2)]).
Proof. split_and!; vm_compute; reflexivity. Qed.

(** C9: the write flow passes the result of a failed parse on.  When the
    file cannot be opened, and likewise when its content is rejected, the
    only call made after parsing is the conversion of the null pointer, and
    the run ends there. *)
Theorem write_converts_failed_parse :
  (∀ NUMROWS NUMCOLS NUMLAYERS_MAX fuel,
     bl_layout_write NUMROWS NUMCOLS NUMLAYERS_MAX fuel (λ _, None) "layout.txt"
     = Some ([Call_convert None], None))
  ∧ bl_layout_write 2 3 6 10 (fs_example (chars "1x")) "layout.txt"
    = Some ([Call_convert None], None).
Proof. split; [reflexivity|]. vm_compute. reflexivity. Qed.

(** C10: a comma after the last key of a layer moves on to row [NUMROWS].
    With that comma at the end of the first line, the keys of the second
    line are stored in rows 2 and 3 of layer 0 of a two-row matrix. *)
Theorem store_beyond_last_row :
  ∃ o,
    bl_parse_layout_file 2 3 6 60
      (fs_example (unlines ["1,2,3,4,5,6,"; "7,8,9,10,11,12"])) "layout.txt" = Some o
    ∧ o_stores o
      = [(0, 0, 0); (0, 0, 1); (0, 0, 2); (0, 1, 0); (0, 1, 1); (0, 1, 2);
         (0, 2, 0); (0, 2, 1); (0, 2, 2); (0, 3, 0); (0, 3, 1); (0, 3, 2)]
    ∧ in_bounds 2 3 6 (0, 2, 0) = false
    ∧ (nlayers <$> ret o) = Some 1.
Proof.
  eexists. split; [vm_compute; reflexivity|]. by split_and!.
Qed.

(** ** Further properties of the code *)

(** *** Invariants of the loop *)

Ltac bool_hyps :=
  repeat match goal with
  | H : (_ =? _) = true |- _ => apply Z.eqb_eq in H
  | H : (_ =? _) = false |- _ => apply Z.eqb_neq in H
  | H : (_ <? _) = true |- _ => apply Z.ltb_lt in H
  | H : (_ <? _) = false |- _ => apply Z.ltb_ge in H
  | H : (_ <=? _) = true |- _ => apply Z.leb_le in H
  | H : (_ <=? _) = false |- _ => apply Z.leb_gt in H
  end.

Section Invariants.

Variables NUMROWS NUMCOLS NUMLAYERS_MAX : Z.

Local Abbreviation loop := (while_loop NUMROWS NUMCOLS).
Local Abbreviation step := (body NUMROWS NUMCOLS).
Local Abbreviation parse := (bl_parse_layout_file NUMROWS NUMCOLS NUMLAYERS_MAX).

(** A property kept by every iteration that is not the start of an endless
    repetition holds when the loop is left, and what holds of every
    [return] inside the loop holds of the one taken. *)
Lemma while_loop_invariant (I : locals → Prop) (Q : outcome → Prop) :
  (∀ s s', I s → feof (f s) = false → step s = inl s' →
     I s' ∨ ∀ fuel, loop fuel s' = None) →
  (∀ s o, I s → feof (f s) = false → step s = inr o → Q o) →
  ∀ fuel s r, I s → loop fuel s = Some r →
    match r with
    | inl s' => I s' ∧ feof (f s') = true
    | inr o => Q o
    end.
Proof.
  intros Hkeep Hret. induction fuel as [|k IH]; intros s r HI H; [discriminate|].
  simpl in H. destruct (feof (f s)) eqn:Heof; [by simplify_eq|].
  destruct (step s) as [s'|o] eqn:Hstep.
  - destruct (Hkeep s s' HI Heof Hstep) as [HI' | Hnever].
    + by apply (IH s').
    + by rewrite Hnever in H.
  - simplify_eq. by apply (Hret s).
Qed.

(** A character that is neither white space nor a digit, met between keys,
    starts an endless repetition. *)
Lemma stray_repeats fl lay l c r buf c0 out sts :
  f_eof fl = false → is_space c0 = false → isdigit c0 = false →
  ∀ fuel, loop fuel (mkLocals fl lay l c r BL_STATE_WHITESPACE buf c0 out sts) = None.
Proof.
  intros Heof Hsp Hd. apply while_loop_stuck; [done|].
  intros out'. simpl. unfold is_space in Hsp. rewrite Hsp, Hd. by eexists.
Qed.

Lemma step_keeps_silence (s s' : locals) :
  printed s = [] → feof (f s) = false → step s = inl s' →
  printed s' = [] ∨ ∀ fuel, loop fuel s' = None.
Proof.
  destruct s as [fl lay l c r st buf c0 out sts]. simpl. intros -> Heof Hstep.
  unfold body in Hstep.
  destruct st.
  - left. repeat case_match; by simplify_eq.
  - destruct (_ || _) eqn:Hsp in Hstep.
    { left. repeat case_match; by simplify_eq. }
    destruct (isdigit c0) eqn:Hd; simplify_eq; [by left|].
    right. by apply stray_repeats.
Qed.

Lemma step_returns_early (s : locals) (o : outcome) :
  printed s = [] → step s = inr o → early_outcome o.
Proof.
  destruct s as [fl lay l c r st buf c0 out sts]. simpl. intros -> Hstep.
  unfold body in Hstep. unfold early_outcome, early_message.
  repeat case_match; simplify_eq; simpl; split_and!; eauto 10.
Qed.

Lemma after_loop_outcome (s : locals) :
  printed s = [] →
  (∃ lay, ret (after_loop NUMROWS NUMCOLS s) = Some lay ∧ nlayers lay = layer s
          ∧ o_printed (after_loop NUMROWS NUMCOLS s) = [])
  ∨ (ret (after_loop NUMROWS NUMCOLS s) = None
     ∧ o_printed (after_loop NUMROWS NUMCOLS s) = [MsgNotEnoughKeys]).
Proof.
  destruct s as [fl lay l c r st buf c0 out sts]. simpl. intros ->.
  unfold after_loop. repeat case_match; simplify_eq; simpl; eauto.
Qed.

Lemma u16_cells_store lay l r c v : u16_cells lay → u16_cells (store lay l r c v).
Proof.
  intros Hu i w. simpl. rewrite lookup_insert. case_decide.
  - intros [= <-]. unfold to_uint16. apply Z.mod_pos_bound. lia.
  - apply Hu.
Qed.

Lemma cells_before_store lay L p l r c v :
  cells_before NUMROWS NUMCOLS lay L p →
  cells_before NUMROWS NUMCOLS (store lay l r c v) L p.
Proof.
  intros Hb l0 r0 c0 Hr0 Hc0 Hcase. simpl.
  apply lookup_insert_is_Some'. right. by apply Hb.
Qed.

Lemma cells_before_next lay L r c v :
  0 < NUMCOLS → 0 ≤ c < NUMCOLS →
  cells_before NUMROWS NUMCOLS lay L (r * NUMCOLS + c) →
  cells_before NUMROWS NUMCOLS (store lay L r c v) L (r * NUMCOLS + c + 1).
Proof.
  intros HC Hc Hb l0 r0 c0 Hr0 Hc0 Hcase. simpl.
  apply lookup_insert_is_Some'.
  destruct Hcase as [Hlow | [-> Hp]]; [right; apply Hb; auto|].
  destruct (decide (r0 * NUMCOLS + c0 = r * NUMCOLS + c)) as [Heq | Hne].
  - left. destruct (row_major_inj NUMCOLS HC r0 c0 r c) as [-> ->]; done.
  - right. apply Hb; [done|done|]. right. split; [done|lia].
Qed.

Lemma cells_before_layer lay L r :
  0 < NUMCOLS → 0 ≤ L → NUMROWS - 1 ≤ r →
  cells_before NUMROWS NUMCOLS lay L (r * NUMCOLS + (NUMCOLS - 1) + 1) →
  cells_before NUMROWS NUMCOLS lay (L + 1) (0 * NUMCOLS + 0).
Proof.
  intros HC HL Hr Hb l0 r0 c0 Hr0 Hc0 [[Hl0 Hrow] | [_ Hp]]; [|nia].
  apply Hb; [done|done|].
  destruct (decide (l0 = L)) as [-> | Hne]; [right; split; [done|nia]|].
  left. lia.
Qed.

Lemma step_keeps_cells (s s' : locals) :
  0 < NUMCOLS → cells_inv NUMROWS NUMCOLS s → step s = inl s' →
  cells_inv NUMROWS NUMCOLS s'.
Proof.
  intros HC. destruct s as [fl lay l c r st buf c0 out sts].
  unfold cells_inv. simpl. intros (Hl & Hr & Hc & Hsts & Hu & Hb) Hstep.
  assert (Forall (store_ok NUMCOLS) (sts ++ [(l, r, c)])) as Hsts'
    by (apply Forall_app; split; [done|];
        constructor; [unfold store_ok; simpl; lia | constructor]).
  unfold body in Hstep.
  repeat case_match; simplify_eq; bool_hyps; simpl;
    split_and!; try done; try lia; auto using u16_cells_store.
  - replace ((r + 1) * NUMCOLS + 0) with (r * NUMCOLS + c + 1) by lia.
    by apply cells_before_next.
  - replace (r * NUMCOLS + (c + 1)) with (r * NUMCOLS + c + 1) by lia.
    by apply cells_before_next.
  - apply cells_before_layer with r; [done|done|lia|].
    replace (r * NUMCOLS + (NUMCOLS - 1) + 1) with (r * NUMCOLS + c + 1) by lia.
    by apply cells_before_next.
Qed.

Lemma step_returns_stores (s : locals) (o : outcome) :
  cells_inv NUMROWS NUMCOLS s → step s = inr o →
  Forall (store_ok NUMCOLS) (o_stores o).
Proof.
  destruct s as [fl lay l c r st buf c0 out sts].
  unfold cells_inv. simpl. intros (Hl & Hr & Hc & Hsts & Hu & Hb) Hstep.
  assert (Forall (store_ok NUMCOLS) (sts ++ [(l, r, c)])) as Hsts'
    by (apply Forall_app; split; [done|];
        constructor; [unfold store_ok; simpl; lia | constructor]).
  unfold body in Hstep. repeat case_match; by simplify_eq.
Qed.

Lemma after_loop_cells (s : locals) (lay : bl_layout_t) :
  cells_inv NUMROWS NUMCOLS s →
  Forall (store_ok NUMCOLS) (o_stores (after_loop NUMROWS NUMCOLS s))
  ∧ (ret (after_loop NUMROWS NUMCOLS s) = Some lay →
     u16_cells lay ∧ cells_before NUMROWS NUMCOLS lay (nlayers lay) 0).
Proof.
  destruct s as [fl lay0 l c r st buf c0 out sts].
  unfold cells_inv. simpl. intros (Hl & Hr & Hc & Hsts & Hu & Hb).
  assert (Forall (store_ok NUMCOLS) (sts ++ [(l, r, c)])) as Hsts'
    by (apply Forall_app; split; [done|];
        constructor; [unfold store_ok; simpl; lia | constructor]).
  assert (cells_before NUMROWS NUMCOLS lay0 l 0) as Hb0.
  { intros l0 r0 c0' Hr0 Hc0 [Hlow | [_ Hp]]; [|nia]. apply Hb; auto. }
  unfold after_loop.
  repeat case_match; simplify_eq; simpl; (split; [done|]); intros ?; simplify_eq;
    simpl; try done.
  split.
  - exact (u16_cells_store lay0 l r c (atoi buf) Hu).
  - exact (cells_before_store lay0 l 0 l r c (atoi buf) Hb0).
Qed.

Lemma enter_loop_cells (data : list ascii) :
  0 < NUMCOLS → cells_inv NUMROWS NUMCOLS (enter_loop NUMLAYERS_MAX data).
Proof.
  intros HC. unfold enter_loop, cells_inv.
  destruct (fgetc _) as [c0 fl]. simpl. split_and!; try done; try lia.
  intros l r c Hr Hc [Hlow | [_ Hp]]; [lia|nia].
Qed.

Lemma after_loop_nlayers (s : locals) (lay : bl_layout_t) :
  ret (after_loop NUMROWS NUMCOLS s) = Some lay → nlayers lay = layer s.
Proof.
  destruct s as [fl lay0 l c r st buf c0 out sts]. unfold after_loop.
  repeat case_match; simpl; intros ?; by simplify_eq.
Qed.

Lemma parse_cases fuel fs fname o :
  parse fuel fs fname = Some o →
  (fs fname = None ∧ o = mkOutcome None false [MsgCouldNotOpen] [])
  ∨ ∃ data r,
      fs fname = Some data ∧ loop fuel (enter_loop NUMLAYERS_MAX data) = Some r
      ∧ o = match r with inl s => after_loop NUMROWS NUMCOLS s | inr o' => o' end.
Proof.
  unfold bl_parse_layout_file. destruct (fs fname) as [data|]; [|left; by simplify_eq].
  destruct (loop fuel _) as [r|] eqn:Hloop; [|discriminate].
  intros Ho. right. exists data, r. destruct r; by simplify_eq.
Qed.

Lemma enter_loop_silent (data : list ascii) :
  printed (enter_loop NUMLAYERS_MAX data) = [].
Proof. unfold enter_loop. by destruct (fgetc _). Qed.

(** X1.  The ways [bl_parse_layout_file] returns.  It hands back a layout, with
    the stream closed and nothing printed; or [NULL] from inside the loop,
    with exactly one line printed (buffer space, keys in row, rows in layer
    or unexpected character among digits) and the stream still open; or
    [NULL] after the loop, with the line about missing key entries and the
    stream closed; or [NULL] because the file could not be opened. *)
Theorem parse_outcome_kinds fuel fs fname o :
  bl_parse_layout_file NUMROWS NUMCOLS NUMLAYERS_MAX fuel fs fname = Some o →
  (∃ lay, ret o = Some lay ∧ stream_open o = false ∧ o_printed o = [])
  ∨ (ret o = None ∧ stream_open o = true ∧ ∃ m, o_printed o = [m] ∧ early_message m)
  ∨ (ret o = None ∧ stream_open o = false ∧ o_printed o = [MsgNotEnoughKeys])
  ∨ (ret o = None ∧ stream_open o = false ∧ o_printed o = [MsgCouldNotOpen]
     ∧ fs fname = None).
Proof.
  intros [[Hfs ->] | (data & r & Hfs & Hloop & ->)]%parse_cases.
  { right. right. right. by split_and!. }
  pose proof (while_loop_invariant (λ s, printed s = []) early_outcome
                step_keeps_silence (λ s o Hs _, step_returns_early s o Hs)
                fuel _ r (enter_loop_silent data) Hloop) as Hr.
  destruct r as [s|o].
  - destruct Hr as [Hs _]. pose proof (return_after_loop NUMROWS NUMCOLS s) as Hclosed.
    destruct (after_loop_outcome s Hs) as [(lay & Hret & _ & Hout) | [Hret Hout]].
    + left. by exists lay.
    + right. right. left. by split_and!.
  - right. left. exact Hr.
Qed.

Lemma progress_keeps_cells (n : nat) : ∀ s,
  0 < NUMCOLS → cells_inv NUMROWS NUMCOLS s →
  Forall (store_ok NUMCOLS) (stores_so_far (progress NUMROWS NUMCOLS n s)).
Proof.
  induction n as [|k IH]; intros s HC Hs; simpl.
  { by destruct Hs as (_ & _ & _ & Hsts & _). }
  destruct (feof (f s)); [apply (after_loop_cells s (bl_create_layout 0) Hs)|].
  destruct (step s) as [s'|o] eqn:Hstep.
  - apply IH; [done|]. by apply (step_keeps_cells s).
  - by apply (step_returns_stores s).
Qed.

(** What [progress] reports once the parser has returned is the outcome of
    [bl_parse_layout_file]. *)
Lemma progress_parse fuel fs fname data o :
  fs fname = Some data → parse fuel fs fname = Some o →
  progress NUMROWS NUMCOLS fuel (enter_loop NUMLAYERS_MAX data) = inr o.
Proof.
  intros Hfs. unfold bl_parse_layout_file. rewrite Hfs.
  generalize (enter_loop NUMLAYERS_MAX data). clear Hfs.
  induction fuel as [|k IH]; intros s H; simpl in *; [discriminate|].
  destruct (feof (f s)); [by simplify_eq|].
  destruct (step s) as [s'|o']; [by apply IH|by simplify_eq].
Qed.

(** X2.  Every store into the matrix has a column index inside a row, and layer
    and row indices that are not negative, whatever the file holds and
    whether or not the parser returns: this holds of the stores made within
    any number of iterations of the loop, those of the code after the loop
    included. *)
Theorem stores_keep_column_in_range (data : list ascii) (n : nat) :
  0 < NUMCOLS →
  Forall (store_ok NUMCOLS)
    (stores_so_far (progress NUMROWS NUMCOLS n (enter_loop NUMLAYERS_MAX data))).
Proof.
  intros HC. apply progress_keeps_cells; [done|]. by apply enter_loop_cells.
Qed.

Lemma parsed_layout_inv fuel fs fname o lay :
  0 < NUMCOLS → parse fuel fs fname = Some o → ret o = Some lay →
  0 ≤ nlayers lay ∧ u16_cells lay
  ∧ cells_before NUMROWS NUMCOLS lay (nlayers lay) 0.
Proof.
  intros HC [[Hfs ->] | (data & r & Hfs & Hloop & ->)]%parse_cases Hret;
    [discriminate|].
  pose proof (while_loop_invariant (cells_inv NUMROWS NUMCOLS)
                (λ o, ret o = None ∨ True)
                (λ s s' Hs _ Hstep, or_introl (step_keeps_cells s s' HC Hs Hstep))
                (λ s o Hs _ _, or_intror I)
                fuel _ r (enter_loop_cells data HC) Hloop) as Hr.
  destruct r as [s|o].
  - destruct Hr as [Hs _].
    destruct (after_loop_cells s lay Hs) as [_ Hlay].
    destruct (Hlay Hret) as [Hu Hb]. split_and!; [|done|done].
    rewrite (after_loop_nlayers s lay Hret). by destruct Hs as (Hl & _).
  - pose proof (return_inside_loop NUMROWS NUMCOLS fuel _ o Hloop) as [Hnone _].
    congruence.
Qed.

Lemma step_keeps_counted (s s' : locals) :
  layers_counted (layer s) (stores s) → step s = inl s' →
  layers_counted (layer s') (stores s').
Proof.
  destruct s as [fl lay l c r st buf c0 out sts]. simpl. intros Hcount Hstep.
  assert (layers_counted l (sts ++ [(l, r, c)])) as Hcount'.
  { intros l0 Hl0. destruct (Hcount l0 Hl0) as (r0 & c1 & Hin).
    exists r0, c1. apply elem_of_app. by left. }
  unfold body in Hstep. repeat case_match; simplify_eq; simpl; try done.
  intros l0 Hl0. destruct (decide (l0 = l)) as [-> | Hne].
  - exists r, c. apply elem_of_app. right. by apply list_elem_of_singleton.
  - apply Hcount'. lia.
Qed.

Lemma after_loop_counted (s : locals) (lay : bl_layout_t) :
  layers_counted (layer s) (stores s) →
  ret (after_loop NUMROWS NUMCOLS s) = Some lay →
  layers_counted (nlayers lay) (o_stores (after_loop NUMROWS NUMCOLS s)).
Proof.
  destruct s as [fl lay0 l c r st buf c0 out sts]. simpl. intros Hcount.
  repeat case_match; simplify_eq; simpl; intros Hret; simplify_eq; simpl; try done.
  intros l0 Hl0. destruct (Hcount l0 Hl0) as (r0 & c1 & Hin).
  exists r0, c1. apply elem_of_app. by left.
Qed.

(** Every layer that a returned layout counts has been stored into. *)
Lemma parsed_layers_counted fuel fs fname o lay :
  parse fuel fs fname = Some o → ret o = Some lay →
  layers_counted (nlayers lay) (o_stores o).
Proof.
  intros [[Hfs ->] | (data & r & Hfs & Hloop & ->)]%parse_cases Hret;
    [discriminate|].
  assert (layers_counted (layer (enter_loop NUMLAYERS_MAX data))
            (stores (enter_loop NUMLAYERS_MAX data))) as Hinit.
  { unfold enter_loop. destruct (fgetc _) as [c0 fl]. simpl. intros l0 Hl0. lia. }
  pose proof (while_loop_invariant (λ s, layers_counted (layer s) (stores s))
                (λ o, True)
                (λ s s' Hs _ Hstep, or_introl (step_keeps_counted s s' Hs Hstep))
                (λ s o _ _ _, I)
                fuel _ r Hinit Hloop) as Hr.
  destruct r as [s|o].
  - destruct Hr as [Hs _]. by apply after_loop_counted.
  - pose proof (return_inside_loop NUMROWS NUMCOLS fuel _ o Hloop) as [Hnone _].
    congruence.
Qed.

(** A layout returned after stores that all lie inside [matrix] counts no
    more layers than [matrix] has. *)
Lemma parsed_layout_bounded fuel fs fname o lay :
  0 ≤ NUMLAYERS_MAX → parse fuel fs fname = Some o → ret o = Some lay →
  Forall (λ i, in_bounds NUMROWS NUMCOLS NUMLAYERS_MAX i = true) (o_stores o) →
  nlayers lay ≤ NUMLAYERS_MAX.
Proof.
  intros HM Hparse Hret Hin.
  pose proof (parsed_layers_counted fuel fs fname o lay Hparse Hret) as Hcount.
  destruct (decide (nlayers lay ≤ NUMLAYERS_MAX)) as [|Hgt]; [done|].
  destruct (Hcount (nlayers lay - 1)) as (r & c & Hrc); [lia|].
  rewrite Forall_forall in Hin. specialize (Hin _ Hrc).
  unfold in_bounds in Hin. bool_hyps. lia.
Qed.

(** X3.  A layout that the parser returns after stores that all lie inside
    [matrix] is complete up to its layer count: the count is between 0 and
    [NUMLAYERS_MAX], and every cell of every counted layer has been stored,
    with a 16-bit value. *)
Theorem parsed_layout_cells_stored fuel fs fname o lay :
  0 < NUMCOLS → 0 ≤ NUMLAYERS_MAX →
  bl_parse_layout_file NUMROWS NUMCOLS NUMLAYERS_MAX fuel fs fname = Some o →
  ret o = Some lay →
  Forall (λ i, in_bounds NUMROWS NUMCOLS NUMLAYERS_MAX i = true) (o_stores o) →
  0 ≤ nlayers lay ≤ NUMLAYERS_MAX
  ∧ ∀ l r c, 0 ≤ l < nlayers lay → 0 ≤ r < NUMROWS → 0 ≤ c < NUMCOLS →
      ∃ v, matrix lay !! (l, r, c) = Some v ∧ 0 ≤ v < 65536.
Proof.
  intros HC HM Hparse Hret Hin.
  destruct (parsed_layout_inv fuel fs fname o lay HC Hparse Hret) as (HL & Hu & Hb).
  pose proof (parsed_layout_bounded fuel fs fname o lay HM Hparse Hret Hin).
  split; [lia|]. intros l r c Hl Hr Hc.
  destruct (Hb l r c) as [v Hv]; [lia|done|left; lia|].
  exists v. split; [done|]. by apply (Hu (l, r, c)).
Qed.

End Invariants.

(** *** Termination *)

Section Termination.

Variables NUMROWS NUMCOLS NUMLAYERS_MAX : Z.

Local Abbreviation loop := (while_loop NUMROWS NUMCOLS).
Local Abbreviation step := (body NUMROWS NUMCOLS).
Local Abbreviation parse := (bl_parse_layout_file NUMROWS NUMCOLS NUMLAYERS_MAX).

Lemma remaining_after_read (s s' : locals) (c' : ascii) :
  f_eof (f s) = false → fgetc (f s) = (c', f s') →
  (remaining s' < remaining s)%nat.
Proof.
  intros Heof Hget. unfold remaining. rewrite Heof. unfold fgetc in Hget.
  destruct (f s) as [[|c0 data] e]; simpl in *; subst e;
    injection Hget as _ <-; simpl; destruct (state s), (state s'); lia.
Qed.

(** An iteration either brings the end of the loop nearer or starts an
    endless repetition. *)
Lemma step_decreases (s s' : locals) :
  feof (f s) = false → step s = inl s' →
  (remaining s' < remaining s)%nat ∨ ∀ fuel, loop fuel s' = None.
Proof.
  destruct s as [fl lay l c r st buf c0 out sts]. simpl. intros Heof Hstep.
  unfold body in Hstep. destruct st.
  - left. repeat case_match; simplify_eq;
      by eapply (remaining_after_read (mkLocals fl _ _ _ _ _ _ _ _ _)).
  - destruct (_ || _) eqn:Hsp in Hstep.
    { left. repeat case_match; simplify_eq.
      by eapply (remaining_after_read (mkLocals fl _ _ _ _ _ _ _ _ _)). }
    destruct (isdigit c0) eqn:Hd; simplify_eq.
    + left. unfold remaining. simpl. unfold feof in Heof. rewrite Heof. lia.
    + right. by apply (stray_repeats NUMROWS NUMCOLS).
Qed.

Lemma loop_returns_or_repeats (fuel : nat) : ∀ s,
  (remaining s < fuel)%nat →
  (∃ r, loop fuel s = Some r) ∨ (∀ k, loop k s = None).
Proof.
  induction fuel as [|k IH]; intros s Hrem; [lia|].
  simpl. destruct (feof (f s)) eqn:Heof; [left; eauto|].
  destruct (step s) as [s'|o] eqn:Hstep; [|left; eauto].
  assert ((∀ j, loop j s' = None) → ∀ j, loop j s = None) as Hlift.
  { intros Hnever [|j]; [done|]. simpl. by rewrite Heof, Hstep. }
  destruct (step_decreases s s' Heof Hstep) as [Hlt | Hnever]; [|right; auto].
  destruct (IH s') as [Hret | Hnever]; [lia|by left|right; auto].
Qed.

(** X4.  The parser returns within two iterations per character of the file
    (and two more), or it never returns: there is no third way, such as a
    return after a longer run. *)
Theorem parse_returns_or_repeats fs fname data :
  fs fname = Some data →
  (∃ o, bl_parse_layout_file NUMROWS NUMCOLS NUMLAYERS_MAX (2 * length data + 2)
          fs fname = Some o)
  ∨ (∀ fuel, bl_parse_layout_file NUMROWS NUMCOLS NUMLAYERS_MAX fuel fs fname = None).
Proof.
  intros Hfs. unfold bl_parse_layout_file. rewrite Hfs.
  destruct (loop_returns_or_repeats (2 * length data + 2)
              (enter_loop NUMLAYERS_MAX data)) as [[r Hr] | Hnever].
  - unfold enter_loop, remaining, fgetc. destruct data; simpl; lia.
  - left. rewrite Hr. destruct r; eauto.
  - right. intros fuel. by rewrite Hnever.
Qed.

End Termination.

(** *** Where the parser gives up *)

Section Rejections.

Variables NUMROWS NUMCOLS NUMLAYERS_MAX : Z.
Hypothesis rows_pos : 0 < NUMROWS.
Hypothesis cols_pos : 0 < NUMCOLS.

Local Abbreviation loop := (while_loop NUMROWS NUMCOLS).
Local Abbreviation step := (body NUMROWS NUMCOLS).
Local Abbreviation parse := (bl_parse_layout_file NUMROWS NUMCOLS NUMLAYERS_MAX).
Local Notation "s ~> s'" := (reaches NUMROWS NUMCOLS s s') (at level 70).

(** After complete layers and comma-closed keys the parser is between keys,
    in the layer after the complete ones, at the row-major position that is
    the number of keys read in it. *)
Lemma run_prefix layers ks t :
  valid_prefix NUMROWS NUMCOLS layers ks = true →
  ∃ lay cl r sts,
    at_text (render_prefix layers ks ++ t) (bl_create_layout NUMLAYERS_MAX) 0 0 0
      BL_STATE_WHITESPACE [] [] []
    ~> at_text t lay (Z.of_nat (length layers)) cl r BL_STATE_WHITESPACE [] [] sts
    ∧ 0 ≤ cl < NUMCOLS ∧ 0 ≤ r ∧ r * NUMCOLS + cl = Z.of_nat (length ks).
Proof.
  unfold valid_prefix, render_prefix. intros [Hall Hks]%andb_prop.
  destruct (all_layers NUMROWS NUMCOLS rows_pos cols_pos [] layers 0
              (render_commas ks ++ t) (bl_create_layout NUMLAYERS_MAX) [] Hall)
    as (lay1 & new1 & Hrun1 & _).
  destruct (keys_commas NUMROWS NUMCOLS cols_pos (0 + Z.of_nat (length layers)) [] ks t
              lay1 0 0 ([] ++ new1) Hks)
    as (lay2 & cl & r & new2 & Hrun2 & Hcl & Hpos & _); [lia|].
  exists lay2, cl, r, (([] ++ new1) ++ new2). split_and!; try lia; [|nia].
  rewrite <- app_assoc.
  by apply (reaches_trans NUMROWS NUMCOLS _ _ _ Hrun1).
Qed.

Lemma position_in_bounds (l r c : Z) :
  0 ≤ l < NUMLAYERS_MAX → 0 ≤ c < NUMCOLS → 0 ≤ r * NUMCOLS + c < NUMROWS * NUMCOLS →
  in_bounds NUMROWS NUMCOLS NUMLAYERS_MAX (l, r, c) = true.
Proof.
  intros Hl Hc Hp. unfold in_bounds.
  rewrite !andb_true_iff, !Z.leb_le, !Z.ltb_lt. nia.
Qed.

(** The same run when the complete layers and [m] keys of the layer after
    them fit [matrix]: every store made lies inside [matrix], and so does
    the cell at the position reached when fewer than [m] keys were read. *)
Lemma run_prefix_bounded layers ks m t :
  valid_prefix NUMROWS NUMCOLS layers ks = true →
  prefix_in_bounds NUMROWS NUMCOLS NUMLAYERS_MAX layers m = true →
  Z.of_nat (length ks) ≤ m →
  ∃ lay cl r sts,
    at_text (render_prefix layers ks ++ t) (bl_create_layout NUMLAYERS_MAX) 0 0 0
      BL_STATE_WHITESPACE [] [] []
    ~> at_text t lay (Z.of_nat (length layers)) cl r BL_STATE_WHITESPACE [] [] sts
    ∧ 0 ≤ cl < NUMCOLS ∧ 0 ≤ r ∧ r * NUMCOLS + cl = Z.of_nat (length ks)
    ∧ Forall (λ i, in_bounds NUMROWS NUMCOLS NUMLAYERS_MAX i = true) sts
    ∧ (Z.of_nat (length ks) < m →
       in_bounds NUMROWS NUMCOLS NUMLAYERS_MAX (Z.of_nat (length layers), r, cl) = true).
Proof.
  unfold valid_prefix, render_prefix, prefix_in_bounds.
  intros [Hall Hks]%andb_prop [Hm HL]%andb_prop Hlen. apply Z.leb_le in Hm.
  assert (Z.of_nat (length layers) ≤ NUMLAYERS_MAX
          ∧ (0 < m → Z.of_nat (length layers) < NUMLAYERS_MAX)) as [HL1 HL2].
  { destruct (m =? 0) eqn:Hm0.
    - apply Z.eqb_eq in Hm0. apply Z.leb_le in HL. lia.
    - apply Z.ltb_lt in HL. lia. }
  destruct (all_layers NUMROWS NUMCOLS rows_pos cols_pos [] layers 0
              (render_commas ks ++ t) (bl_create_layout NUMLAYERS_MAX) [] Hall)
    as (lay1 & new1 & Hrun1 & _ & _ & Hnew1).
  destruct (keys_commas NUMROWS NUMCOLS cols_pos (0 + Z.of_nat (length layers)) [] ks t
              lay1 0 0 ([] ++ new1) Hks)
    as (lay2 & cl & r & new2 & Hrun2 & Hcl & Hpos & _ & _ & Hnew2); [lia|].
  exists lay2, cl, r, (([] ++ new1) ++ new2). split_and!; try lia.
  - rewrite <- app_assoc.
    by apply (reaches_trans NUMROWS NUMCOLS _ _ _ Hrun1).
  - nia.
  - apply Forall_app. split.
    + eapply Forall_impl; [exact Hnew1|].
      intros [[l0 r0] c0]. simpl. intros (Hl0 & Hc0 & Hp).
      apply position_in_bounds; lia.
    + eapply Forall_impl; [exact Hnew2|].
      intros [[l0 r0] c0]. unfold stored_in. simpl. intros (-> & Hc0 & Hp).
      apply position_in_bounds; lia.
  - intros Hlt. apply position_in_bounds; lia.
Qed.

Lemma Forall_in_bounds_snoc (sts : list (Z * Z * Z)) (i : Z * Z * Z) :
  Forall (λ i, in_bounds NUMROWS NUMCOLS NUMLAYERS_MAX i = true) sts →
  in_bounds NUMROWS NUMCOLS NUMLAYERS_MAX i = true →
  Forall (λ i, in_bounds NUMROWS NUMCOLS NUMLAYERS_MAX i = true) (sts ++ [i]).
Proof. intros Hsts Hi. apply Forall_app. split; [done|]. by constructor. Qed.

Lemma parse_reaches fs fname text s k r :
  fs fname = Some text →
  at_text text (bl_create_layout NUMLAYERS_MAX) 0 0 0 BL_STATE_WHITESPACE [] [] [] ~> s →
  loop k s = Some r →
  ∃ fuel, parse fuel fs fname
          = Some match r with inl s' => after_loop NUMROWS NUMCOLS s' | inr o => o end.
Proof.
  intros Hfs Hrun Hk.
  destruct (reaches_result NUMROWS NUMCOLS _ _ k r Hrun Hk) as [fuel Hfuel].
  exists fuel. unfold bl_parse_layout_file. rewrite Hfs.
  change (enter_loop NUMLAYERS_MAX text)
    with (at_text text (bl_create_layout NUMLAYERS_MAX) 0 0 0 BL_STATE_WHITESPACE [] [] []).
  rewrite Hfuel. by destruct r.
Qed.

Lemma split_after_19 (ds : list ascii) :
  (20 ≤ length ds)%nat →
  ∃ d0 ds0 d19 ds19, ds = (d0 :: ds0) ++ d19 :: ds19 ∧ length (d0 :: ds0) = 19%nat.
Proof.
  intros Hlen.
  assert (length (take 19 ds) = 19%nat) as Hlen19 by (rewrite length_take; lia).
  assert (length (drop 19 ds) ≠ 0%nat) as Hrest by (rewrite length_drop; lia).
  destruct (take 19 ds) as [|d0 ds0] eqn:Htake; [discriminate|].
  destruct (drop 19 ds) as [|d19 ds19] eqn:Hdrop; [done|].
  exists d0, ds0, d19, ds19. split; [|done].
  rewrite <- Htake, <- Hdrop. symmetry. apply take_drop.
Qed.

(** X6.  A run of twenty or more digits is refused wherever a key may start
    after complete layers and comma-closed keys that fit [matrix]: the
    parser prints the line about buffer space and returns [NULL] with the
    stream open, and every store made before that lies inside [matrix]. *)
Theorem parse_rejects_long_key layers ks ws ds t fs fname :
  valid_prefix NUMROWS NUMCOLS layers ks = true →
  prefix_in_bounds NUMROWS NUMCOLS NUMLAYERS_MAX layers (Z.of_nat (length ks)) = true →
  forallb is_space ws = true → forallb isdigit ds = true → (20 ≤ length ds)%nat →
  fs fname = Some (render_prefix layers ks ++ ws ++ ds ++ t) →
  ∃ fuel o,
    bl_parse_layout_file NUMROWS NUMCOLS NUMLAYERS_MAX fuel fs fname = Some o
    ∧ ret o = None ∧ o_printed o = [MsgBufferSpace] ∧ stream_open o = true
    ∧ Forall (λ i, in_bounds NUMROWS NUMCOLS NUMLAYERS_MAX i = true) (o_stores o).
Proof.
  intros Hpre Hfit Hws Hds Hlen Hfs.
  destruct (split_after_19 ds Hlen) as (d0 & ds0 & d19 & ds19 & -> & Hlen19).
  rewrite forallb_app in Hds. apply andb_prop in Hds as [Htake Hdrop].
  simpl in Hdrop. apply andb_prop in Hdrop as [Hd19 _].
  assert (isdigit d0 = true) as Hd0 by (simpl in Htake; by destruct (isdigit d0)).
  rewrite <- app_assoc in Hfs.
  destruct (run_prefix_bounded layers ks _ (ws ++ (d0 :: ds0) ++ (d19 :: ds19) ++ t)
              Hpre Hfit ltac:(lia))
    as (lay & cl & r & sts & Hrun & _ & _ & _ & Hsts & _).
  pose proof (skip_space NUMROWS NUMCOLS ws ((d0 :: ds0) ++ (d19 :: ds19) ++ t) lay
                (Z.of_nat (length layers)) cl r [] [] sts Hws) as Hrun2.
  pose proof (enter_digits NUMROWS NUMCOLS d0 (ds0 ++ (d19 :: ds19) ++ t) lay
                (Z.of_nat (length layers)) cl r [] [] sts Hd0) as Hrun3.
  pose proof (read_digits NUMROWS NUMCOLS (d0 :: ds0) ((d19 :: ds19) ++ t) lay
                (Z.of_nat (length layers)) cl r [] [] sts Htake
                ltac:(rewrite Hlen19; simpl; lia)) as Hrun4.
  destruct (parse_reaches fs fname _ _ 1%nat
              (inr (mkOutcome None true [MsgBufferSpace] sts)) Hfs
              (reaches_trans _ _ _ _ _ Hrun
                 (reaches_trans _ _ _ _ _ Hrun2
                    (reaches_trans _ _ _ _ _ Hrun3 Hrun4)))) as [fuel Hfuel].
  { simpl. rewrite Hd19.
    replace (BUFSIZE - 1 <=? Z.of_nat (S (length ds0))) with true; [done|].
    symmetry. apply Z.leb_le. unfold BUFSIZE. simpl in Hlen19. lia. }
  exists fuel. eexists. split; [exact Hfuel|done].
Qed.

Lemma position_div_mod (m r cl : Z) :
  0 ≤ cl < NUMCOLS → r * NUMCOLS + cl = m → r = m / NUMCOLS ∧ cl = m mod NUMCOLS.
Proof.
  intros Hcl Hm. split.
  - apply (Z.div_unique_pos m NUMCOLS r cl); lia.
  - apply (Z.mod_unique_pos m NUMCOLS r cl); lia.
Qed.

(** X7.  A line feed or carriage return straight after a key that is not the
    last of its layer is refused, wherever it stands in a layer that
    [matrix] has room for: the parser returns [NULL] with the stream open,
    and complains about the keys in the row when the key is not the last of
    its row, otherwise about the rows in the layer.  Every store made
    before that, the one of the key included, lies inside [matrix]. *)
Theorem parse_rejects_early_line_break layers ks k e t fs fname :
  valid_prefix NUMROWS NUMCOLS layers ks = true →
  prefix_in_bounds NUMROWS NUMCOLS NUMLAYERS_MAX layers (Z.of_nat (length ks) + 1) = true →
  valid_key k = true →
  e = LF ∨ e = CR →
  Z.of_nat (length ks) + 1 < NUMROWS * NUMCOLS →
  fs fname = Some (render_prefix layers ks ++ k.1 ++ k.2 ++ e :: t) →
  ∃ fuel o,
    bl_parse_layout_file NUMROWS NUMCOLS NUMLAYERS_MAX fuel fs fname = Some o
    ∧ ret o = None ∧ stream_open o = true
    ∧ o_printed o = [if Z.of_nat (length ks) mod NUMCOLS <? NUMCOLS - 1
                     then MsgKeysInRow else MsgRowsInLayer]
    ∧ Forall (λ i, in_bounds NUMROWS NUMCOLS NUMLAYERS_MAX i = true) (o_stores o).
Proof.
  intros Hpre Hfit Hk He Hshort Hfs.
  destruct (run_prefix_bounded layers ks _ (k.1 ++ k.2 ++ e :: t) Hpre Hfit ltac:(lia))
    as (lay & cl & r & sts & Hrun & Hcl & Hr & Hpos & Hsts & Hnext).
  pose proof (Forall_in_bounds_snoc sts _ Hsts (Hnext ltac:(lia))) as Hsts'.
  pose proof (read_key NUMROWS NUMCOLS k (e :: t) lay (Z.of_nat (length layers))
                cl r [] sts Hk) as Hrun2.
  destruct (position_div_mod _ r cl Hcl Hpos) as [_ <-].
  assert (isdigit e = false ∧ Ascii.eqb e COMMA = false
          ∧ Ascii.eqb e LF || Ascii.eqb e CR = true) as (He1 & He2 & He3)
    by (destruct He as [-> | ->]; done).
  destruct (parse_reaches fs fname _ _ 1%nat
              (inr (mkOutcome None true
                      [if cl <? NUMCOLS - 1 then MsgKeysInRow else MsgRowsInLayer]
                      (sts ++ [(Z.of_nat (length layers), r, cl)]))) Hfs
              (reaches_trans _ _ _ _ _ Hrun Hrun2)) as [fuel Hfuel].
  { simpl. rewrite He1, He2, He3.
    destruct (cl <? NUMCOLS - 1) eqn:Hlt; [done|].
    apply Z.ltb_ge in Hlt.
    replace (r <? NUMROWS - 1) with true; [done|].
    symmetry. apply Z.ltb_lt. nia. }
  exists fuel. eexists. split; [exact Hfuel|done].
Qed.

(** X8.  A character after the digits of a key that is neither a digit, a comma,
    a line feed nor a carriage return (a space or a tab, for one) is
    refused, wherever it stands after complete layers and comma-closed keys
    that fit [matrix]: the parser names it and returns [NULL] with the
    stream open, and every store made before that lies inside [matrix]. *)
Theorem parse_rejects_character_after_digits layers ks k c t fs fname :
  valid_prefix NUMROWS NUMCOLS layers ks = true →
  prefix_in_bounds NUMROWS NUMCOLS NUMLAYERS_MAX layers (Z.of_nat (length ks)) = true →
  valid_key k = true →
  isdigit c = false → c ≠ COMMA → c ≠ LF → c ≠ CR →
  fs fname = Some (render_prefix layers ks ++ k.1 ++ k.2 ++ c :: t) →
  ∃ fuel o,
    bl_parse_layout_file NUMROWS NUMCOLS NUMLAYERS_MAX fuel fs fname = Some o
    ∧ ret o = None ∧ stream_open o = true
    ∧ o_printed o = [MsgUnexpectedInDigits c]
    ∧ Forall (λ i, in_bounds NUMROWS NUMCOLS NUMLAYERS_MAX i = true) (o_stores o).
Proof.
  intros Hpre Hfit Hk Hd Hcomma Hlf Hcr Hfs.
  destruct (run_prefix_bounded layers ks _ (k.1 ++ k.2 ++ c :: t) Hpre Hfit ltac:(lia))
    as (lay & cl & r & sts & Hrun & _ & _ & _ & Hsts & _).
  pose proof (read_key NUMROWS NUMCOLS k (c :: t) lay (Z.of_nat (length layers))
                cl r [] sts Hk) as Hrun2.
  apply Ascii.eqb_neq in Hcomma, Hlf, Hcr.
  destruct (parse_reaches fs fname _ _ 1%nat
              (inr (mkOutcome None true [MsgUnexpectedInDigits c] sts)) Hfs
              (reaches_trans _ _ _ _ _ Hrun Hrun2)) as [fuel Hfuel].
  { simpl. by rewrite Hd, Hcomma, Hlf, Hcr. }
  exists fuel. eexists. split; [exact Hfuel|done].
Qed.

(** X9.  A file that ends between keys, after complete layers and [m]
    comma-closed keys of a further layer that fit [matrix].  With
    [r = m / NUMCOLS] and [c = m mod NUMCOLS], the parser complains about
    missing key entries when [0 < r < NUMROWS - 1] or [0 < c < NUMCOLS - 1];
    otherwise it returns a layout that counts the complete layers only.
    Either way the stream is closed and every store made lies inside
    [matrix]. *)
Theorem parse_ends_between_keys layers ks ws fs fname :
  valid_prefix NUMROWS NUMCOLS layers ks = true →
  prefix_in_bounds NUMROWS NUMCOLS NUMLAYERS_MAX layers (Z.of_nat (length ks)) = true →
  forallb is_space ws = true →
  fs fname = Some (render_prefix layers ks ++ ws) →
  ∃ fuel o,
    bl_parse_layout_file NUMROWS NUMCOLS NUMLAYERS_MAX fuel fs fname = Some o
    ∧ stream_open o = false
    ∧ Forall (λ i, in_bounds NUMROWS NUMCOLS NUMLAYERS_MAX i = true) (o_stores o)
    ∧ let r := Z.of_nat (length ks) / NUMCOLS in
      let c := Z.of_nat (length ks) mod NUMCOLS in
      if (0 <? r) && (r <? NUMROWS - 1) || (0 <? c) && (c <? NUMCOLS - 1)
      then ret o = None ∧ o_printed o = [MsgNotEnoughKeys]
      else ∃ lay, ret o = Some lay ∧ nlayers lay = Z.of_nat (length layers)
                  ∧ o_printed o = [].
Proof.
  intros Hpre Hfit Hws Hfs.
  destruct (run_prefix_bounded layers ks _ (ws ++ []) Hpre Hfit ltac:(lia))
    as (lay & cl & r & sts & Hrun & Hcl & Hr & Hpos & Hsts & _).
  pose proof (skip_space NUMROWS NUMCOLS ws [] lay (Z.of_nat (length layers))
                cl r [] [] sts Hws) as Hrun2.
  rewrite app_nil_r in Hrun, Hrun2.
  destruct (position_div_mod _ r cl Hcl Hpos) as [<- <-].
  destruct (parse_reaches fs fname _ _ 1%nat (inl _) Hfs
              (reaches_trans _ _ _ _ _ Hrun Hrun2) eq_refl) as [fuel Hfuel].
  exists fuel. eexists. split; [exact Hfuel|].
  rewrite at_text_nil. unfold after_loop. cbn [length Z.of_nat Z.ltb Z.compare].
  cbv zeta. destruct (_ || _); simpl; split_and!; eauto.
Qed.

(** X10.  A file that ends inside a key, after complete layers and [m]
    comma-closed keys of a further layer, where [matrix] has room for them
    and for the key.  The key is stored at the position reached, row
    [r = m / NUMCOLS] and column [c = m mod NUMCOLS], but neither the
    position nor the layer count moves on: the parser complains about
    missing key entries when [0 < r < NUMROWS - 1] or [0 < c < NUMCOLS - 1],
    and otherwise returns a layout that counts the layers closed by a line
    break only, also when the key is the last of its layer.  Every store
    made lies inside [matrix]. *)
Theorem parse_ends_inside_key layers ks k fs fname :
  valid_prefix NUMROWS NUMCOLS layers ks = true →
  prefix_in_bounds NUMROWS NUMCOLS NUMLAYERS_MAX layers (Z.of_nat (length ks) + 1) = true →
  valid_key k = true →
  fs fname = Some (render_prefix layers ks ++ k.1 ++ k.2) →
  ∃ fuel o,
    bl_parse_layout_file NUMROWS NUMCOLS NUMLAYERS_MAX fuel fs fname = Some o
    ∧ stream_open o = false
    ∧ Forall (λ i, in_bounds NUMROWS NUMCOLS NUMLAYERS_MAX i = true) (o_stores o)
    ∧ let r := Z.of_nat (length ks) / NUMCOLS in
      let c := Z.of_nat (length ks) mod NUMCOLS in
      last (o_stores o) = Some (Z.of_nat (length layers), r, c)
      ∧ if (0 <? r) && (r <? NUMROWS - 1) || (0 <? c) && (c <? NUMCOLS - 1)
        then ret o = None ∧ o_printed o = [MsgNotEnoughKeys]
        else ∃ lay, ret o = Some lay ∧ nlayers lay = Z.of_nat (length layers)
                    ∧ matrix lay !! (Z.of_nat (length layers), r, c)
                      = Some (decimal k.2).
Proof.
  intros Hpre Hfit Hk Hfs.
  destruct (run_prefix_bounded layers ks _ (k.1 ++ k.2 ++ []) Hpre Hfit ltac:(lia))
    as (lay & cl & r & sts & Hrun & Hcl & Hr & Hpos & Hsts & Hnext).
  pose proof (Forall_in_bounds_snoc sts _ Hsts (Hnext ltac:(lia))) as Hsts'.
  pose proof (read_key NUMROWS NUMCOLS k [] lay (Z.of_nat (length layers))
                cl r [] sts Hk) as Hrun2.
  rewrite app_nil_r in Hrun, Hrun2.
  destruct (position_div_mod _ r cl Hcl Hpos) as [<- <-].
  destruct (parse_reaches fs fname _ _ 1%nat (inl _) Hfs
              (reaches_trans _ _ _ _ _ Hrun Hrun2) eq_refl) as [fuel Hfuel].
  destruct (valid_key_inv k Hk) as (_ & Hds & (d & ds & Hd & _) & _ & Hv).
  exists fuel. eexists. split; [exact Hfuel|].
  assert ((0 <? Z.of_nat (length k.2)) = true) as Hfull by (by rewrite Hd).
  rewrite at_text_nil. unfold after_loop. rewrite Hfull.
  destruct (_ || _); simpl; (split; [done|]); (split; [done|]);
    (split; [apply last_snoc|]); [done|].
  eexists. split_and!; try done.
  simpl. by rewrite lookup_insert_eq, atoi_decimal, to_uint16_small.
Qed.

(** X11.  A number above 65535 is stored reduced modulo 65536.  For the last key
    of the last layer of a file whose layers fit [matrix], written with at
    most nineteen digits and not above [INT_MAX]: the parse succeeds,
    counts the layer, the last cell of that layer holds the number modulo
    65536, and every store made lies inside [matrix]. *)
Theorem parse_reduces_wide_number layers ks k ws fs fname :
  valid_prefix NUMROWS NUMCOLS layers ks = true →
  prefix_in_bounds NUMROWS NUMCOLS NUMLAYERS_MAX layers (Z.of_nat (length ks) + 1) = true →
  Z.of_nat (length ks) + 1 = NUMROWS * NUMCOLS →
  wide_key k = true → forallb is_space ws = true →
  fs fname = Some (render_prefix layers ks ++ k.1 ++ k.2 ++ LF :: ws) →
  ∃ fuel o lay,
    bl_parse_layout_file NUMROWS NUMCOLS NUMLAYERS_MAX fuel fs fname = Some o
    ∧ ret o = Some lay
    ∧ nlayers lay = Z.of_nat (length layers) + 1
    ∧ matrix lay !! (Z.of_nat (length layers), NUMROWS - 1, NUMCOLS - 1)
      = Some (decimal k.2 mod 65536)
    ∧ Forall (λ i, in_bounds NUMROWS NUMCOLS NUMLAYERS_MAX i = true) (o_stores o).
Proof.
  intros Hpre Hfit Hlen Hk Hws Hfs.
  unfold wide_key in Hk. rewrite !andb_true_iff, !Z.leb_le in Hk.
  destruct Hk as ((((Hsp & Hds) & H1) & H19) & _).
  destruct (k.2) as [|d ds] eqn:Hk2; [simpl in H1; lia|].
  assert (isdigit d = true) as Hd by (simpl in Hds; by destruct (isdigit d)).
  destruct (run_prefix_bounded layers ks _ (k.1 ++ (d :: ds) ++ LF :: ws ++ [])
              Hpre Hfit ltac:(lia))
    as (lay & cl & r & sts & Hrun & Hcl & Hr & Hpos & Hsts & Hnext).
  pose proof (Forall_in_bounds_snoc sts _ Hsts (Hnext ltac:(lia))) as Hsts'.
  destruct (row_major_inj NUMCOLS cols_pos r cl (NUMROWS - 1) (NUMCOLS - 1))
    as [-> ->]; [lia|lia|lia|].
  pose proof (skip_space NUMROWS NUMCOLS (k.1) ((d :: ds) ++ LF :: ws ++ []) lay
                (Z.of_nat (length layers)) (NUMCOLS - 1) (NUMROWS - 1) [] [] sts Hsp)
    as Hrun2.
  pose proof (enter_digits NUMROWS NUMCOLS d (ds ++ LF :: ws ++ []) lay
                (Z.of_nat (length layers)) (NUMCOLS - 1) (NUMROWS - 1) [] [] sts Hd)
    as Hrun3.
  pose proof (read_digits NUMROWS NUMCOLS (d :: ds) (LF :: ws ++ []) lay
                (Z.of_nat (length layers)) (NUMCOLS - 1) (NUMROWS - 1) [] [] sts Hds
                ltac:(simpl in *; lia)) as Hrun4.
  assert (at_text (LF :: ws ++ []) lay (Z.of_nat (length layers)) (NUMCOLS - 1)
            (NUMROWS - 1) BL_STATE_DIGIT (d :: ds) [] sts
          ~> at_text (ws ++ [])
               (store lay (Z.of_nat (length layers)) (NUMROWS - 1) (NUMCOLS - 1)
                  (decimal (d :: ds)))
               (Z.of_nat (length layers) + 1) 0 0 BL_STATE_WHITESPACE [] []
               (sts ++ [(Z.of_nat (length layers), NUMROWS - 1, NUMCOLS - 1)]))
    as Hrun5.
  { apply reaches_step; [reflexivity|]. rewrite at_text_cons. unfold body.
    change (isdigit LF) with false. change (Ascii.eqb LF COMMA) with false.
    change (Ascii.eqb LF LF) with true. cbv iota. simpl orb. cbv iota.
    rewrite !Z.ltb_irrefl, atoi_decimal by done. apply read_next. }
  pose proof (skip_space NUMROWS NUMCOLS ws []
                (store lay (Z.of_nat (length layers)) (NUMROWS - 1) (NUMCOLS - 1)
                   (decimal (d :: ds)))
                (Z.of_nat (length layers) + 1) 0 0 [] []
                (sts ++ [(Z.of_nat (length layers), NUMROWS - 1, NUMCOLS - 1)]) Hws)
    as Hrun6.
  rewrite <- (app_nil_r ws) in Hfs at 1.
  destruct (parse_reaches fs fname _ _ 1%nat (inl _) Hfs
              (reaches_trans _ _ _ _ _ Hrun
                 (reaches_trans _ _ _ _ _ Hrun2
                    (reaches_trans _ _ _ _ _ Hrun3
                       (reaches_trans _ _ _ _ _ Hrun4
                          (reaches_trans _ _ _ _ _ Hrun5 Hrun6))))) eq_refl)
    as [fuel Hfuel].
  exists fuel. eexists. eexists. split; [exact Hfuel|].
  rewrite after_loop_end. split_and!; [done|done| |done].
  unfold store. cbn [matrix]. by rewrite lookup_insert_eq.
Qed.

Lemma never_from_reaches (s s' : locals) :
  s ~> s' → (∀ k, loop k s' = None) → ∀ k, loop k s = None.
Proof.
  intros [n Hn] Hnever k.
  destruct (loop k s) as [r|] eqn:Hk; [|done].
  apply (while_loop_more NUMROWS NUMCOLS k n) in Hk.
  rewrite (Nat.add_comm k n), Hn, Hnever in Hk. discriminate.
Qed.

(** X5.  A character that is neither a digit nor white space where a key may
    start (a letter, a second comma, a comma at the start of the file)
    keeps the parser busy for ever: after the complete layers and
    comma-closed keys before it, no amount of fuel lets the parser return. *)
Theorem parse_repeats_on_stray_character layers ks ws c t fs fname :
  valid_prefix NUMROWS NUMCOLS layers ks = true → forallb is_space ws = true →
  is_space c = false → isdigit c = false →
  fs fname = Some (render_prefix layers ks ++ ws ++ c :: t) →
  ∀ fuel, bl_parse_layout_file NUMROWS NUMCOLS NUMLAYERS_MAX fuel fs fname = None.
Proof.
  intros Hpre Hws Hsp Hd Hfs fuel.
  destruct (run_prefix layers ks (ws ++ c :: t) Hpre)
    as (lay & cl & r & sts & Hrun & _).
  pose proof (skip_space NUMROWS NUMCOLS ws (c :: t) lay (Z.of_nat (length layers))
                cl r [] [] sts Hws) as Hrun2.
  unfold bl_parse_layout_file. rewrite Hfs.
  change (enter_loop NUMLAYERS_MAX ?x)
    with (at_text x (bl_create_layout NUMLAYERS_MAX) 0 0 0 BL_STATE_WHITESPACE [] [] []).
  rewrite (never_from_reaches _ _ (reaches_trans _ _ _ _ _ Hrun Hrun2)); [done|].
  rewrite at_text_cons. by apply stray_repeats.
Qed.

End Rejections.

(** *** The block of a layout *)

Section Block.

Variables NUMROWS NUMCOLS NUMLAYERS_MAX : Z.
Hypothesis rows_pos : 0 < NUMROWS.
Hypothesis cols_pos : 0 < NUMCOLS.

Local Abbreviation convert := (bl_layout_convert NUMROWS NUMCOLS).
Local Abbreviation parse := (bl_parse_layout_file NUMROWS NUMCOLS NUMLAYERS_MAX).
Local Abbreviation write := (bl_layout_write NUMROWS NUMCOLS NUMLAYERS_MAX).

(** The block has two bytes for each cell of the counted layers and two
    more, whatever the layout holds. *)
Theorem convert_block_length (lay : bl_layout_t) :
  Z.of_nat (length (bl_layout_convert NUMROWS NUMCOLS lay))
  = Z.max 0 (2 + 2 * nlayers lay * NUMROWS * NUMCOLS).
Proof. rewrite convert_length. lia. Qed.

Lemma read16_group data n (v : Z) :
  0 ≤ v < 65536 → group data n = bytes_of (Some v) → read16 data n = Some v.
Proof.
  unfold group, bytes_of, read16. intros Hv [= -> ->]. simpl. f_equal.
  pose proof (Z.div_mod v 256). lia.
Qed.

(** X13.  Reading the block back where the encoder writes: the 16-bit group
    number [l * NUMROWS * NUMCOLS + r * NUMCOLS + c], counted from the
    start of the block, is the stored cell [(l, r, c)], low byte first. *)
Theorem convert_reads_back (lay : bl_layout_t) (l r c v : Z) :
  0 ≤ l < nlayers lay → 0 ≤ r < NUMROWS → 0 ≤ c < NUMCOLS →
  matrix lay !! (l, r, c) = Some v → 0 ≤ v < 65536 →
  read16 (bl_layout_convert NUMROWS NUMCOLS lay)
    (l * NUMROWS * NUMCOLS + r * NUMCOLS + c) = Some v.
Proof.
  intros Hl Hr Hc Hcell Hv. apply read16_group; [done|].
  rewrite <- Hcell. by apply convert_group_cell.
Qed.

(** X14.  With at least one layer the first group of the block, where the layer
    count was written first, ends up holding cell (0,0,0), and the last
    group of the block is never written. *)
Theorem convert_first_and_last_group (lay : bl_layout_t) :
  0 < nlayers lay →
  group (bl_layout_convert NUMROWS NUMCOLS lay) 0 = bytes_of (matrix lay !! (0, 0, 0))
  ∧ group (bl_layout_convert NUMROWS NUMCOLS lay) (nlayers lay * NUMROWS * NUMCOLS)
    = (Some None, Some None).
Proof.
  intros HL. split; [|by apply convert_group_last].
  apply (convert_group_cell NUMROWS NUMCOLS rows_pos cols_pos lay 0 0 0); lia.
Qed.

(** Every group below [L * NUMROWS * NUMCOLS] belongs to one cell. *)
Lemma group_cell (L n : Z) :
  0 ≤ n < L * NUMROWS * NUMCOLS →
  ∃ l r c, 0 ≤ l < L ∧ 0 ≤ r < NUMROWS ∧ 0 ≤ c < NUMCOLS
           ∧ n = l * NUMROWS * NUMCOLS + r * NUMCOLS + c.
Proof.
  intros Hn.
  exists (n / (NUMROWS * NUMCOLS)), (n mod (NUMROWS * NUMCOLS) / NUMCOLS),
    (n mod (NUMROWS * NUMCOLS) mod NUMCOLS).
  assert (0 < NUMROWS * NUMCOLS) as HRC by nia.
  pose proof (Z.div_mod n (NUMROWS * NUMCOLS) ltac:(lia)) as Hdm.
  pose proof (Z.mod_pos_bound n (NUMROWS * NUMCOLS) HRC) as Hm.
  pose proof (Z.div_mod (n mod (NUMROWS * NUMCOLS)) NUMCOLS ltac:(lia)) as Hdm2.
  pose proof (Z.mod_pos_bound (n mod (NUMROWS * NUMCOLS)) NUMCOLS cols_pos) as Hm2.
  assert (0 ≤ n / (NUMROWS * NUMCOLS)) by (apply Z.div_pos; lia).
  assert (0 ≤ n mod (NUMROWS * NUMCOLS) / NUMCOLS) by (apply Z.div_pos; lia).
  split_and!; try lia; nia.
Qed.

(** X15.  The block of a layout that the parser returned after stores that all
    lie inside [matrix] holds a byte between 0 and 255 at every offset
    except the last two: the layout counts no more layers than [matrix]
    has, and no cell that the encoder reads was left unset by the parser. *)
Theorem parsed_block_bytes fuel fs fname o lay (j : Z) :
  0 ≤ NUMLAYERS_MAX →
  bl_parse_layout_file NUMROWS NUMCOLS NUMLAYERS_MAX fuel fs fname = Some o →
  ret o = Some lay →
  Forall (λ i, in_bounds NUMROWS NUMCOLS NUMLAYERS_MAX i = true) (o_stores o) →
  0 ≤ j < 2 * nlayers lay * NUMROWS * NUMCOLS →
  nlayers lay ≤ NUMLAYERS_MAX
  ∧ ∃ b, bl_layout_convert NUMROWS NUMCOLS lay !! Z.to_nat j = Some (Some b) ∧ 0 ≤ b < 256.
Proof.
  intros HM Hparse Hret Hin Hj.
  split; [by apply (parsed_layout_bounded NUMROWS NUMCOLS NUMLAYERS_MAX
                      fuel fs fname o lay)|].
  destruct (parsed_layout_inv NUMROWS NUMCOLS NUMLAYERS_MAX fuel fs fname o lay
              cols_pos Hparse Hret) as (HL & Hu & Hb).
  destruct (group_cell (nlayers lay) (j / 2)) as (l & r & c & Hl & Hr & Hc & Hn).
  { pose proof (Z.div_mod j 2 ltac:(lia)). pose proof (Z.mod_pos_bound j 2 ltac:(lia)).
    lia. }
  destruct (Hb l r c) as [v Hv]; [lia|done|left; lia|].
  pose proof (Hu (l, r, c) v Hv) as Hrange.
  pose proof (convert_group_cell NUMROWS NUMCOLS rows_pos cols_pos lay l r c Hl Hr Hc)
    as Hgroup.
  rewrite <- Hn, Hv in Hgroup. unfold group, bytes_of in Hgroup. simpl in Hgroup.
  injection Hgroup as Hlo Hhi.
  pose proof (Z.div_mod j 2 ltac:(lia)) as Hdm.
  pose proof (Z.mod_pos_bound j 2 ltac:(lia)) as Hm.
  destruct (decide (j mod 2 = 0)) as [H0 | H1].
  - exists (v mod 256). replace j with (2 * (j / 2)) at 1 by lia.
    split; [done|]. apply Z.mod_pos_bound. lia.
  - exists (v / 256). replace j with (2 * (j / 2) + 1) at 1 by lia.
    split; [done|]. split; [apply Z.div_pos; lia|].
    apply Z.div_lt_upper_bound; lia.
Qed.

End Block.

(** *** Enumerations in row-major order *)

Lemma bind_singleton_fmap {A B} (h : A → B) (l : list A) :
  (l ≫= λ x, [h x]) = h <$> l.
Proof. induction l as [|x l IH]; [done|]. rewrite bind_cons, IH. done. Qed.

Lemma enum_row {B} (n : nat) (h : Z → B) (ys : list B) :
  length ys = n →
  (∀ c, 0 ≤ c < Z.of_nat n → ys !! Z.to_nat c = Some (h c)) →
  (seqZ 0 (Z.of_nat n) ≫= λ c, [h c]) = ys.
Proof.
  intros Hlen Hys. rewrite bind_singleton_fmap. apply list_eq. intros i.
  rewrite list_lookup_fmap. destruct (decide (i < n)%nat) as [Hlt | Hge].
  - rewrite lookup_seqZ_lt, Z.add_0_l by lia.
    specialize (Hys (Z.of_nat i) ltac:(lia)). rewrite Nat2Z.id in Hys.
    by rewrite Hys.
  - rewrite lookup_seqZ_ge by lia. simpl. symmetry. apply lookup_ge_None. lia.
Qed.

Lemma enum_rows {B} (w : nat) (g : Z → Z → B) (n : nat) : ∀ xs : list B,
  length xs = (n * w)%nat →
  (∀ r c, 0 ≤ r < Z.of_nat n → 0 ≤ c < Z.of_nat w →
     xs !! Z.to_nat (r * Z.of_nat w + c) = Some (g r c)) →
  (seqZ 0 (Z.of_nat n) ≫= λ r, seqZ 0 (Z.of_nat w) ≫= λ c, [g r c]) = xs.
Proof.
  induction n as [|n IH]; intros xs Hlen Hxs.
  { by destruct xs. }
  rewrite seqZ_S, bind_app, bind_singleton. simpl.
  rewrite <- (take_drop (n * w) xs). f_equal.
  - apply IH; [rewrite length_take; lia|].
    intros r c Hr Hc. rewrite lookup_take_lt by nia. apply Hxs; lia.
  - apply enum_row; [rewrite length_drop; lia|].
    intros c Hc. rewrite lookup_drop.
    replace (n * w + Z.to_nat c)%nat with (Z.to_nat (Z.of_nat n * Z.of_nat w + c)) by lia.
    apply Hxs; lia.
Qed.

Lemma enum_layers {A B} (F : Z → list B) (G : A → list B) (xs : list A) :
  (∀ (i : nat) x, xs !! i = Some x → F (Z.of_nat i) = G x) →
  (seqZ 0 (Z.of_nat (length xs)) ≫= F) = concat (G <$> xs).
Proof.
  induction xs as [|x xs IH] using rev_ind; intros HF; [done|].
  rewrite length_app, Nat.add_1_r, seqZ_S, bind_app, bind_singleton.
  rewrite fmap_app, concat_app. simpl. rewrite app_nil_r. f_equal.
  - apply IH. intros i y Hi. apply HF. by apply lookup_app_l_Some.
  - apply HF. by rewrite lookup_app_r, Nat.sub_diag.
Qed.

(** *** The pretty printer *)

Section Printing.

Variables NUMROWS NUMCOLS NUMLAYERS_MAX : Z.
Hypothesis rows_pos : 0 < NUMROWS.
Hypothesis cols_pos : 0 < NUMCOLS.

Local Abbreviation print := (bl_layout_print NUMROWS NUMCOLS).
Local Abbreviation parse := (bl_parse_layout_file NUMROWS NUMCOLS NUMLAYERS_MAX).
Local Abbreviation write := (bl_layout_write NUMROWS NUMCOLS NUMLAYERS_MAX).

Lemma printed_cells_app (a b : list printf_call) :
  printed_cells (a ++ b) = printed_cells a ++ printed_cells b.
Proof. apply bind_app. Qed.

Lemma printed_cells_cons (p : printf_call) (l : list printf_call) :
  printed_cells (p :: l)
  = match p with Print_cell v => [v] | _ => [] end ++ printed_cells l.
Proof. done. Qed.

Lemma printed_cells_bind {A} (l : list A) (k : A → list printf_call) :
  printed_cells (l ≫= k) = l ≫= λ x, printed_cells (k x).
Proof.
  induction l as [|x l IH]; [done|].
  by rewrite !bind_cons, printed_cells_app, IH.
Qed.

Lemma printed_cells_columns (l : list Z) :
  printed_cells (l ≫= λ col, [Print_column (col + 1)]) = [].
Proof. induction l as [|x l IH]; [done|]. by rewrite bind_cons, printed_cells_app, IH. Qed.

Lemma bind_pointwise {A B} (h k : A → list B) (l : list A) :
  (∀ x, h x = k x) → l ≫= h = l ≫= k.
Proof. intros Hhk. induction l as [|x l IH]; [done|]. by rewrite !bind_cons, Hhk, IH. Qed.

(** The printer shows the cells of the counted layers, layer by layer and
    row by row. *)
Lemma printed_cells_print (lay : bl_layout_t) :
  printed_cells (print lay)
  = (seqZ 0 (nlayers lay) ≫= λ l, seqZ 0 NUMROWS ≫= λ r, seqZ 0 NUMCOLS ≫= λ c,
       [matrix lay !! (l, r, c)]).
Proof.
  unfold bl_layout_print.
  rewrite printed_cells_cons, printed_cells_bind. cbn [app].
  apply bind_pointwise. intros l.
  rewrite !printed_cells_cons, printed_cells_app, printed_cells_columns.
  rewrite printed_cells_cons, printed_cells_app, printed_cells_bind.
  change (printed_cells [Print_newline]) with (@nil (option Z)).
  cbn [app]. rewrite app_nil_r.
  apply bind_pointwise. intros r.
  rewrite printed_cells_cons, printed_cells_app, printed_cells_bind.
  change (printed_cells [Print_newline]) with (@nil (option Z)).
  cbn [app]. rewrite app_nil_r.
  apply bind_pointwise. by intros c.
Qed.

Lemma parse_well_formed layers trail fs fname :
  valid_layout NUMROWS NUMCOLS NUMLAYERS_MAX layers trail = true →
  fs fname = Some (render_layout layers trail) →
  ∃ fuel lay sts,
    parse fuel fs fname = Some (mkOutcome (Some lay) false [] sts)
    ∧ nlayers lay = Z.of_nat (length layers)
    ∧ ∀ (l : nat) ks, layers !! l = Some ks →
        Z.of_nat (length ks) = NUMROWS * NUMCOLS
        ∧ filled NUMCOLS lay (Z.of_nat l) 0 ks.
Proof.
  intros (_ & Hall & Htrail)%valid_layout_inv Hfs.
  destruct (all_layers NUMROWS NUMCOLS rows_pos cols_pos [] layers 0 trail
              (bl_create_layout NUMLAYERS_MAX) [] Hall)
    as (lay & new & Hrun & Hfill & _).
  pose proof (skip_space NUMROWS NUMCOLS trail [] lay (0 + Z.of_nat (length layers))
                0 0 [] [] ([] ++ new) Htrail) as Hend.
  rewrite app_nil_r in Hend.
  destruct (reaches_result NUMROWS NUMCOLS _ _ 1%nat (inl _)
              (reaches_trans _ _ _ _ _ Hrun Hend) eq_refl) as [fuel Hfuel].
  exists fuel, (mkLayout (Z.of_nat (length layers)) (matrix lay)), ([] ++ new).
  split_and!; [|done|].
  - unfold bl_parse_layout_file. rewrite Hfs.
    change (enter_loop NUMLAYERS_MAX (render_layout layers trail))
      with (at_text (concat (render_keys <$> layers) ++ trail)
              (bl_create_layout NUMLAYERS_MAX) 0 0 0 BL_STATE_WHITESPACE [] [] []).
    rewrite Hfuel. by rewrite after_loop_end.
  - intros l ks Hl. split; [|exact (Hfill l ks Hl)].
    rewrite forallb_forall in Hall.
    assert (In ks layers) as Hin
      by (apply list_elem_of_In; by apply list_elem_of_lookup_2 with l).
    apply Hall in Hin. apply andb_prop in Hin as [Hlen _]. by apply Z.eqb_eq.
Qed.

(** X16.  Parsing a well-formed text and printing the layout shows the numbers
    of the text: the first call prints the number of layers of the text,
    and the cells printed are its numbers in reading order. *)
Theorem print_shows_source_numbers layers trail fs fname :
  valid_layout NUMROWS NUMCOLS NUMLAYERS_MAX layers trail = true →
  fs fname = Some (render_layout layers trail) →
  ∃ fuel o lay,
    bl_parse_layout_file NUMROWS NUMCOLS NUMLAYERS_MAX fuel fs fname = Some o
    ∧ ret o = Some lay
    ∧ head (bl_layout_print NUMROWS NUMCOLS lay)
      = Some (Print_count (Z.of_nat (length layers)))
    ∧ printed_cells (bl_layout_print NUMROWS NUMCOLS lay) = source_numbers layers.
Proof.
  intros Hvalid Hfs.
  destruct (parse_well_formed layers trail fs fname Hvalid Hfs)
    as (fuel & lay & sts & Hparse & HL & Hfill).
  exists fuel, (mkOutcome (Some lay) false [] sts), lay.
  split_and!; [exact Hparse|done|by simpl; rewrite HL|].
  rewrite printed_cells_print, HL. unfold source_numbers.
  apply enum_layers. intros l ks Hl. destruct (Hfill l ks Hl) as [Hlen Hks].
  rewrite <- (Z2Nat.id NUMROWS), <- (Z2Nat.id NUMCOLS) by lia.
  apply enum_rows.
  - rewrite length_fmap. nia.
  - rewrite !Z2Nat.id by lia. intros r c Hr Hc. rewrite list_lookup_fmap.
    destruct (lookup_lt_is_Some_2 ks (Z.to_nat (r * NUMCOLS + c))) as [k Hk]; [nia|].
    rewrite Hk. simpl. f_equal. symmetry. apply (Hks _ k r c Hk); [done|lia].
Qed.

Lemma Forall_enum {B} (P : B → Prop) (g : Z → Z → Z → B) (L : Z) :
  (∀ l r c, 0 ≤ l < L → 0 ≤ r < NUMROWS → 0 ≤ c < NUMCOLS → P (g l r c)) →
  Forall P (seqZ 0 L ≫= λ l, seqZ 0 NUMROWS ≫= λ r, seqZ 0 NUMCOLS ≫= λ c, [g l r c]).
Proof.
  intros HP. apply Forall_forall. intros x.
  intros (l & (r & (c & Hx & Hc)%list_elem_of_bind & Hr)%list_elem_of_bind
            & Hl)%list_elem_of_bind.
  apply list_elem_of_singleton in Hx as ->.
  apply elem_of_seqZ in Hl, Hr, Hc. apply HP; lia.
Qed.

(** X17.  Printing a layout that the parser returned after stores that all lie
    inside [matrix] shows stored cells only: the layout counts no more
    layers than [matrix] has, and every cell the printer reads was set by
    the parser. *)
Theorem print_shows_stored_cells fuel fs fname o lay :
  0 ≤ NUMLAYERS_MAX →
  bl_parse_layout_file NUMROWS NUMCOLS NUMLAYERS_MAX fuel fs fname = Some o →
  ret o = Some lay →
  Forall (λ i, in_bounds NUMROWS NUMCOLS NUMLAYERS_MAX i = true) (o_stores o) →
  nlayers lay ≤ NUMLAYERS_MAX
  ∧ Forall (λ v, ∃ w, v = Some w ∧ 0 ≤ w < 65536)
      (printed_cells (bl_layout_print NUMROWS NUMCOLS lay)).
Proof.
  intros HM Hparse Hret Hin.
  split; [by apply (parsed_layout_bounded NUMROWS NUMCOLS NUMLAYERS_MAX
                      fuel fs fname o lay)|].
  destruct (parsed_layout_inv NUMROWS NUMCOLS NUMLAYERS_MAX fuel fs fname o lay
              cols_pos Hparse Hret) as (HL & Hu & Hb).
  rewrite printed_cells_print. apply Forall_enum. intros l r c Hl Hr Hc.
  destruct (Hb l r c) as [v Hv]; [lia|done|left; lia|].
  exists v. split; [done|]. by apply (Hu (l, r, c)).
Qed.

(** X18.  The write flow on a well-formed text: the layout is converted and the
    block is handed to the device code with the number of layers of the
    text, and 0 is returned.  The block has two bytes per cell and two
    more, and its 16-bit group [l * NUMROWS * NUMCOLS + r * NUMCOLS + c] is
    number [r * NUMCOLS + c] of layer [l] of the text. *)
Theorem write_well_formed_text layers trail fs fname :
  valid_layout NUMROWS NUMCOLS NUMLAYERS_MAX layers trail = true →
  fs fname = Some (render_layout layers trail) →
  ∃ fuel lay data,
    bl_layout_write NUMROWS NUMCOLS NUMLAYERS_MAX fuel fs fname
    = Some ([Call_convert (Some lay); Call_usb_write data (Z.of_nat (length layers))],
            Some 0)
    ∧ Z.of_nat (length data) = 2 + 2 * Z.of_nat (length layers) * NUMROWS * NUMCOLS
    ∧ ∀ (l : nat) ks r c k,
        layers !! l = Some ks → 0 ≤ r < NUMROWS → 0 ≤ c < NUMCOLS →
        ks !! Z.to_nat (r * NUMCOLS + c) = Some k →
        read16 data (Z.of_nat l * NUMROWS * NUMCOLS + r * NUMCOLS + c)
        = Some (decimal k.2).
Proof.
  intros Hvalid Hfs.
  destruct (parse_well_formed layers trail fs fname Hvalid Hfs)
    as (fuel & lay & sts & Hparse & HL & Hfill).
  exists fuel, lay, (bl_layout_convert NUMROWS NUMCOLS lay). split_and!.
  - unfold bl_layout_write. rewrite Hparse. simpl. by rewrite HL.
  - rewrite convert_length, HL. nia.
  - intros l ks r c k Hl Hr Hc Hk.
    destruct (Hfill l ks Hl) as [Hlen Hks].
    assert (matrix lay !! (Z.of_nat l, r, c) = Some (decimal k.2)) as Hcell
      by (apply (Hks _ k r c Hk); [done|lia]).
    apply read16_group.
    + destruct (valid_layout_inv NUMROWS NUMCOLS NUMLAYERS_MAX layers trail Hvalid)
        as (_ & Hall & _).
      rewrite forallb_forall in Hall.
      assert (In ks layers) as Hin
        by (apply list_elem_of_In; by apply list_elem_of_lookup_2 with l).
      apply Hall in Hin. apply andb_prop in Hin as [_ Hkeys].
      rewrite forallb_forall in Hkeys.
      destruct (valid_key_inv k) as (_ & _ & _ & _ & Hv); [|done].
      apply Hkeys. apply list_elem_of_In. by eapply list_elem_of_lookup_2.
    + rewrite <- Hcell.
      apply (convert_group_cell NUMROWS NUMCOLS rows_pos cols_pos); [|done|done].
      rewrite HL. apply lookup_lt_Some in Hl. lia.
Qed.

(** X19.  The write flow on a blank file, empty or of white space only: a layout
    of no layer is converted and the two bytes 00 00 are handed to the
    device code with the layer count 0. *)
Theorem write_blank_file ws fs fname :
  forallb is_space ws = true → fs fname = Some ws →
  ∃ fuel,
    bl_layout_write NUMROWS NUMCOLS NUMLAYERS_MAX fuel fs fname
    = Some ([Call_convert (Some (mkLayout 0 ∅)); Call_usb_write [Some 0; Some 0] 0],
            Some 0).
Proof.
  intros Hws Hfs.
  pose proof (skip_space NUMROWS NUMCOLS ws [] (bl_create_layout NUMLAYERS_MAX)
                0 0 0 [] [] [] Hws) as Hrun.
  rewrite app_nil_r in Hrun.
  destruct (reaches_result NUMROWS NUMCOLS _ _ 1%nat (inl _) Hrun eq_refl)
    as [fuel Hfuel].
  exists fuel. unfold bl_layout_write, bl_parse_layout_file. rewrite Hfs.
  change (enter_loop NUMLAYERS_MAX ws)
    with (at_text ws (bl_create_layout NUMLAYERS_MAX) 0 0 0 BL_STATE_WHITESPACE [] [] []).
  rewrite Hfuel. reflexivity.
Qed.

End Printing.

(** *** Carriage returns *)

Section LineEnds.

Variables NUMROWS NUMCOLS NUMLAYERS_MAX : Z.

Local Abbreviation loop := (while_loop NUMROWS NUMCOLS).
Local Abbreviation step := (body NUMROWS NUMCOLS).
Local Abbreviation parse := (bl_parse_layout_file NUMROWS NUMCOLS NUMLAYERS_MAX).

Lemma fgetc_cr_to_lf (fl : FILE) :
  fgetc (cr_to_lf_file fl) = ((cr_to_lf (fgetc fl).1), cr_to_lf_file (fgetc fl).2).
Proof. destruct fl as [[|c data] e]; reflexivity. Qed.

Lemma cr_to_lf_other (c : ascii) :
  c ≠ CR → cr_to_lf c = c.
Proof. intros Hc. unfold cr_to_lf. by rewrite (proj2 (Ascii.eqb_neq c CR)). Qed.

Lemma step_cr_to_lf (s : locals) :
  step (cr_to_lf_locals s)
  = match step s with inl s' => inl (cr_to_lf_locals s') | inr o => inr o end.
Proof.
  destruct s as [fl lay l c r st buf c0 out sts].
  unfold cr_to_lf_locals, body. simpl. rewrite fgetc_cr_to_lf.
  destruct (fgetc fl) as [c' fl']. simpl.
  destruct (decide (c0 = CR)) as [-> | Hne].
  - change (cr_to_lf CR) with LF. destruct st; simpl; repeat case_match; done.
  - rewrite (cr_to_lf_other c0 Hne).
    destruct st; repeat case_match; simpl; by rewrite ?(cr_to_lf_other c0 Hne).
Qed.

Lemma while_loop_S (k : nat) (s : locals) :
  loop (S k) s
  = if feof (f s) then Some (inl s)
    else match step s with inl s' => loop k s' | inr o => Some (inr o) end.
Proof. done. Qed.

Lemma loop_cr_to_lf (fuel : nat) : ∀ s,
  loop fuel (cr_to_lf_locals s)
  = match loop fuel s with
    | Some (inl s') => Some (inl (cr_to_lf_locals s'))
    | Some (inr o) => Some (inr o)
    | None => None
    end.
Proof.
  induction fuel as [|k IH]; intros s; [done|].
  rewrite !while_loop_S.
  change (feof (f (cr_to_lf_locals s))) with (feof (f s)).
  destruct (feof (f s)); [done|].
  rewrite step_cr_to_lf. destruct (step s) as [s'|o]; [apply IH|done].
Qed.

Lemma after_loop_cr_to_lf (s : locals) :
  after_loop NUMROWS NUMCOLS (cr_to_lf_locals s) = after_loop NUMROWS NUMCOLS s.
Proof. by destruct s. Qed.

Lemma enter_loop_cr_to_lf (data : list ascii) :
  enter_loop NUMLAYERS_MAX (cr_to_lf <$> data)
  = cr_to_lf_locals (enter_loop NUMLAYERS_MAX data).
Proof. by destruct data. Qed.

(** X12.  Carriage returns and line feeds are interchangeable: a file and the
    same file with every carriage return turned into a line feed are parsed
    to the same outcome, with the same fuel. *)
Theorem parse_cr_as_lf (fuel : nat) (fs : string → option (list ascii))
    (fname : string) :
  bl_parse_layout_file NUMROWS NUMCOLS NUMLAYERS_MAX fuel
    (λ n, option_map (map cr_to_lf) (fs n)) fname
  = bl_parse_layout_file NUMROWS NUMCOLS NUMLAYERS_MAX fuel fs fname.
Proof.
  unfold bl_parse_layout_file. destruct (fs fname) as [data|]; [|done]. simpl.
  rewrite enter_loop_cr_to_lf, loop_cr_to_lf.
  destruct (loop fuel _) as [[s|o]|]; [|done|done].
  by rewrite after_loop_cr_to_lf.
Qed.

End LineEnds.

(** *** Instances on the device of two rows, three columns and six layers *)

Lemma parse_outcome_kinds_witness :
  ∃ o,
    bl_parse_layout_file 2 3 6 10 (fs_example (unlines ["1,2,3"])) "layout.txt" = Some o
    ∧ ((∃ lay, ret o = Some lay ∧ stream_open o = false ∧ o_printed o = [])
       ∨ (ret o = None ∧ stream_open o = true
          ∧ ∃ m, o_printed o = [m] ∧ early_message m)
       ∨ (ret o = None ∧ stream_open o = false ∧ o_printed o = [MsgNotEnoughKeys])
       ∨ (ret o = None ∧ stream_open o = false ∧ o_printed o = [MsgCouldNotOpen]
          ∧ fs_example (unlines ["1,2,3"]) "layout.txt" = None)).
Proof.
  eexists. split; [vm_compute; reflexivity|].
  apply (parse_outcome_kinds 2 3 6 10 (fs_example (unlines ["1,2,3"])) "layout.txt").
  vm_compute. reflexivity.
Defined.

Lemma stores_keep_column_in_range_witness :
  Forall (store_ok 3)
    (stores_so_far (progress 2 3 7 (enter_loop 6 (chars "1,x")))).
Proof. apply (stores_keep_column_in_range 2 3 6 (chars "1,x") 7). lia. Defined.

Lemma parsed_layout_cells_stored_witness :
  ∃ o lay,
    bl_parse_layout_file 2 3 6 60
      (fs_example (unlines ["1,2,3,4,5,6"; "7,8,9,10,11,12"])) "layout.txt" = Some o
    ∧ ret o = Some lay
    ∧ Forall (λ i, in_bounds 2 3 6 i = true) (o_stores o)
    ∧ 0 ≤ nlayers lay ≤ 6
    ∧ ∀ l r c, 0 ≤ l < nlayers lay → 0 ≤ r < 2 → 0 ≤ c < 3 →
        ∃ v, matrix lay !! (l, r, c) = Some v ∧ 0 ≤ v < 65536.
Proof.
  eexists. eexists. split; [vm_compute; reflexivity|]. split; [reflexivity|].
  assert (Forall (λ i, in_bounds 2 3 6 i = true)
            (seqZ 0 2 ≫= λ l, seqZ 0 2 ≫= λ r, seqZ 0 3 ≫= λ c, [(l, r, c)])) as Hin
    by (vm_compute; repeat constructor).
  split; [exact Hin|].
  eapply (parsed_layout_cells_stored 2 3 6 60
            (fs_example (unlines ["1,2,3,4,5,6"; "7,8,9,10,11,12"])) "layout.txt");
    [lia|lia|vm_compute; reflexivity|reflexivity|exact Hin].
Defined.

Lemma parse_returns_or_repeats_witness :
  (∃ o, bl_parse_layout_file 2 3 6 (2 * length (chars "1,,2") + 2)
          (fs_example (chars "1,,2")) "layout.txt" = Some o)
  ∨ (∀ fuel, bl_parse_layout_file 2 3 6 fuel (fs_example (chars "1,,2")) "layout.txt"
             = None).
Proof.
  apply (parse_returns_or_repeats 2 3 6 (fs_example (chars "1,,2")) "layout.txt").
  reflexivity.
Defined.

Lemma parse_rejects_long_key_witness :
  ∃ fuel o,
    bl_parse_layout_file 2 3 6 fuel
      (fs_example (render_prefix [sample_layer] [sample_key "7"]
                   ++ [SPACE] ++ chars "00000000000000000008" ++ chars ",9"))
      "layout.txt" = Some o
    ∧ ret o = None ∧ o_printed o = [MsgBufferSpace] ∧ stream_open o = true
    ∧ Forall (λ i, in_bounds 2 3 6 i = true) (o_stores o).
Proof.
  apply (parse_rejects_long_key 2 3 6 ltac:(lia) ltac:(lia) [sample_layer]
           [sample_key "7"] [SPACE] (chars "00000000000000000008") (chars ",9"));
    first [reflexivity | simpl; lia].
Defined.

Lemma parse_rejects_early_line_break_witness :
  ∃ fuel o,
    bl_parse_layout_file 2 3 6 fuel
      (fs_example (render_prefix [sample_layer] [sample_key "7"; sample_key "8"]
                   ++ [] ++ chars "9" ++ CR :: chars "10,11,12"))
      "layout.txt" = Some o
    ∧ ret o = None ∧ stream_open o = true
    ∧ o_printed o = [MsgRowsInLayer]
    ∧ Forall (λ i, in_bounds 2 3 6 i = true) (o_stores o).
Proof.
  apply (parse_rejects_early_line_break 2 3 6 ltac:(lia) ltac:(lia) [sample_layer]
           [sample_key "7"; sample_key "8"] (sample_key "9") CR (chars "10,11,12"));
    first [reflexivity | by right | simpl; lia].
Defined.

Lemma parse_rejects_character_after_digits_witness :
  ∃ fuel o,
    bl_parse_layout_file 2 3 6 fuel
      (fs_example (render_prefix [sample_layer] [sample_key "7"]
                   ++ [] ++ chars "8" ++ SPACE :: chars ",9"))
      "layout.txt" = Some o
    ∧ ret o = None ∧ stream_open o = true
    ∧ o_printed o = [MsgUnexpectedInDigits SPACE]
    ∧ Forall (λ i, in_bounds 2 3 6 i = true) (o_stores o).
Proof.
  apply (parse_rejects_character_after_digits 2 3 6 ltac:(lia) ltac:(lia)
           [sample_layer] [sample_key "7"] (sample_key "8") SPACE (chars ",9"));
    first [reflexivity | discriminate].
Defined.

Lemma parse_ends_between_keys_witness :
  ∃ fuel o,
    bl_parse_layout_file 2 3 6 fuel
      (fs_example (render_prefix [sample_layer] [sample_key "7"; sample_key "8"] ++ [LF]))
      "layout.txt" = Some o
    ∧ stream_open o = false
    ∧ Forall (λ i, in_bounds 2 3 6 i = true) (o_stores o)
    ∧ ∃ lay, ret o = Some lay ∧ nlayers lay = 1 ∧ o_printed o = [].
Proof.
  apply (parse_ends_between_keys 2 3 6 ltac:(lia) ltac:(lia) [sample_layer]
           [sample_key "7"; sample_key "8"] [LF]); reflexivity.
Defined.

Lemma parse_ends_inside_key_witness :
  ∃ fuel o,
    bl_parse_layout_file 2 3 6 fuel
      (fs_example (render_prefix [sample_layer] [sample_key "7"] ++ [] ++ chars "8"))
      "layout.txt" = Some o
    ∧ stream_open o = false
    ∧ Forall (λ i, in_bounds 2 3 6 i = true) (o_stores o)
    ∧ last (o_stores o) = Some (1, 0, 1)
    ∧ ret o = None ∧ o_printed o = [MsgNotEnoughKeys].
Proof.
  apply (parse_ends_inside_key 2 3 6 ltac:(lia) ltac:(lia) [sample_layer]
           [sample_key "7"] (sample_key "8")); reflexivity.
Defined.

Lemma parse_reduces_wide_number_witness :
  ∃ fuel o lay,
    bl_parse_layout_file 2 3 6 fuel
      (fs_example (render_prefix [sample_layer]
                     [sample_key "7"; sample_key "8"; sample_key "9"; sample_key "10";
                      sample_key "11"]
                   ++ [SPACE] ++ chars "70000" ++ LF :: [LF]))
      "layout.txt" = Some o
    ∧ ret o = Some lay
    ∧ nlayers lay = 1 + 1
    ∧ matrix lay !! (1, 2 - 1, 3 - 1) = Some (decimal (chars "70000") mod 65536)
    ∧ Forall (λ i, in_bounds 2 3 6 i = true) (o_stores o).
Proof.
  apply (parse_reduces_wide_number 2 3 6 ltac:(lia) ltac:(lia) [sample_layer]
           [sample_key "7"; sample_key "8"; sample_key "9"; sample_key "10";
            sample_key "11"] ([SPACE], chars "70000") [LF]); reflexivity.
Defined.

Lemma parse_repeats_on_stray_character_witness :
  bl_parse_layout_file 2 3 6 1000000
    (fs_example (render_prefix [sample_layer] [sample_key "7"]
                 ++ [SPACE] ++ COMMA :: chars "8"))
    "layout.txt" = None.
Proof.
  apply (parse_repeats_on_stray_character 2 3 6 ltac:(lia) ltac:(lia) [sample_layer]
           [sample_key "7"] [SPACE] COMMA (chars "8")); reflexivity.
Defined.

Lemma convert_reads_back_witness :
  read16 (bl_layout_convert 2 3 (mkLayout 1 (<[(0, 1, 2) := 513]> ∅)))
    (0 * 2 * 3 + 1 * 3 + 2) = Some 513.
Proof.
  apply (convert_reads_back 2 3 ltac:(lia) ltac:(lia)
           (mkLayout 1 (<[(0, 1, 2) := 513]> ∅)) 0 1 2 513);
    first [reflexivity | simpl; lia].
Defined.

Lemma convert_first_and_last_group_witness :
  group (bl_layout_convert 2 3 (mkLayout 1 (<[(0, 0, 0) := 513]> ∅))) 0
  = bytes_of (matrix (mkLayout 1 (<[(0, 0, 0) := 513]> ∅)) !! (0, 0, 0))
  ∧ group (bl_layout_convert 2 3 (mkLayout 1 (<[(0, 0, 0) := 513]> ∅))) (1 * 2 * 3)
    = (Some None, Some None).
Proof.
  apply (convert_first_and_last_group 2 3 ltac:(lia) ltac:(lia)
           (mkLayout 1 (<[(0, 0, 0) := 513]> ∅))).
  simpl. lia.
Defined.

Lemma parsed_block_bytes_witness :
  ∃ o lay,
    bl_parse_layout_file 2 3 6 30 (fs_example (unlines ["7,8,9,10,11,12"])) "layout.txt"
      = Some o
    ∧ ret o = Some lay
    ∧ Forall (λ i, in_bounds 2 3 6 i = true) (o_stores o)
    ∧ nlayers lay ≤ 6
    ∧ ∃ b, bl_layout_convert 2 3 lay !! Z.to_nat 11 = Some (Some b) ∧ 0 ≤ b < 256.
Proof.
  eexists. eexists. split; [vm_compute; reflexivity|]. split; [reflexivity|].
  assert (Forall (λ i, in_bounds 2 3 6 i = true)
            (seqZ 0 1 ≫= λ l, seqZ 0 2 ≫= λ r, seqZ 0 3 ≫= λ c, [(l, r, c)])) as Hin
    by (vm_compute; repeat constructor).
  split; [exact Hin|].
  eapply (parsed_block_bytes 2 3 6 ltac:(lia) ltac:(lia) 30
            (fs_example (unlines ["7,8,9,10,11,12"])) "layout.txt");
    [lia|vm_compute; reflexivity|reflexivity|exact Hin|simpl; lia].
Defined.

Lemma print_shows_source_numbers_witness :
  ∃ fuel o lay,
    bl_parse_layout_file 2 3 6 fuel
      (fs_example (render_layout [sample_layer; sample_layer] [LF])) "layout.txt"
      = Some o
    ∧ ret o = Some lay
    ∧ head (bl_layout_print 2 3 lay) = Some (Print_count 2)
    ∧ printed_cells (bl_layout_print 2 3 lay)
      = source_numbers [sample_layer; sample_layer].
Proof.
  apply (print_shows_source_numbers 2 3 6 ltac:(lia) ltac:(lia)
           [sample_layer; sample_layer] [LF]); reflexivity.
Defined.

Lemma print_shows_stored_cells_witness :
  ∃ o lay,
    bl_parse_layout_file 2 3 6 60
      (fs_example (unlines ["1,2,3,4,5,6"; "7,8,9,10,11,12"])) "layout.txt" = Some o
    ∧ ret o = Some lay
    ∧ Forall (λ i, in_bounds 2 3 6 i = true) (o_stores o)
    ∧ nlayers lay ≤ 6
    ∧ Forall (λ v, ∃ w, v = Some w ∧ 0 ≤ w < 65536)
        (printed_cells (bl_layout_print 2 3 lay)).
Proof.
  eexists. eexists. split; [vm_compute; reflexivity|]. split; [reflexivity|].
  assert (Forall (λ i, in_bounds 2 3 6 i = true)
            (seqZ 0 2 ≫= λ l, seqZ 0 2 ≫= λ r, seqZ 0 3 ≫= λ c, [(l, r, c)])) as Hin
    by (vm_compute; repeat constructor).
  split; [exact Hin|].
  eapply (print_shows_stored_cells 2 3 6 ltac:(lia) 60
            (fs_example (unlines ["1,2,3,4,5,6"; "7,8,9,10,11,12"])) "layout.txt");
    [lia|vm_compute; reflexivity|reflexivity|exact Hin].
Defined.

Lemma write_well_formed_text_witness :
  ∃ fuel lay data,
    bl_layout_write 2 3 6 fuel
      (fs_example (render_layout [sample_layer; sample_layer] [LF])) "layout.txt"
    = Some ([Call_convert (Some lay); Call_usb_write data 2], Some 0)
    ∧ Z.of_nat (length data) = 2 + 2 * 2 * 2 * 3
    ∧ read16 data (1 * 2 * 3 + 1 * 3 + 2) = Some 6.
Proof.
  destruct (write_well_formed_text 2 3 6 ltac:(lia) ltac:(lia)
              [sample_layer; sample_layer] [LF]
              (fs_example (render_layout [sample_layer; sample_layer] [LF]))
              "layout.txt" ltac:(reflexivity) ltac:(reflexivity))
    as (fuel & lay & data & Hwrite & Hlen & Hcells).
  exists fuel, lay, data. split_and!; [exact Hwrite|exact Hlen|].
  exact (Hcells 1%nat sample_layer 1 2 (sample_key "6") eq_refl ltac:(lia) ltac:(lia)
           eq_refl).
Defined.

Lemma write_blank_file_witness :
  ∃ fuel,
    bl_layout_write 2 3 6 fuel (fs_example [SPACE; LF; TAB; CR]) "layout.txt"
    = Some ([Call_convert (Some (mkLayout 0 ∅)); Call_usb_write [Some 0; Some 0] 0],
            Some 0).
Proof.
  apply (write_blank_file 2 3 6 [SPACE; LF; TAB; CR]); reflexivity.
Defined.
